(** * Glossary term service: identifier normalizer, term resolver, batch seeder

    A shallow embedding of the term service (the module that defines
    [normalizeId], [getTermData] and [seedDatabase]) and of
    [services/supabase.ts] ([isSupabaseConfigured], the client handle).

    JavaScript strings are sequences of UTF-16 code units; they are modelled
    as [list N].  The host functions the code calls but does not define
    ([String.prototype.toLowerCase], [JSON.parse], the two remote services)
    are parameters of the model. *)

From Stdlib Require Import List NArith Bool String Ascii Lia DecimalString.
From Stdlib Require Import PrimFloat.
Import ListNotations.
Open Scope string_scope.
Open Scope list_scope.
Open Scope N_scope.

(** ** JavaScript strings *)

Definition jsstring : Type := list N.

(** Source literals are written as Rocq strings (UTF-8 bytes) and decoded to
    UTF-16 code units. *)
Fixpoint utf16_of_utf8 (bs : list N) : jsstring :=
  match bs with
  | [] => []
  | b0 :: r0 =>
    if b0 <? 128 then b0 :: utf16_of_utf8 r0
    else
      match r0 with
      | [] => []
      | b1 :: r1 =>
        if b0 <? 224 then (b0 mod 32 * 64 + b1 mod 64) :: utf16_of_utf8 r1
        else
          match r1 with
          | [] => []
          | b2 :: r2 =>
            if b0 <? 240
            then (b0 mod 16 * 4096 + b1 mod 64 * 64 + b2 mod 64) :: utf16_of_utf8 r2
            else
              match r2 with
              | [] => []
              | b3 :: r3 =>
                let cp := b0 mod 8 * 262144 + b1 mod 64 * 4096
                          + b2 mod 64 * 64 + b3 mod 64 in
                let v := cp - 65536 in
                (55296 + v / 1024) :: (56320 + v mod 1024) :: utf16_of_utf8 r3
              end
          end
      end
  end.

Definition lit (s : string) : jsstring :=
  utf16_of_utf8 (map N_of_ascii (list_ascii_of_string s)).

Fixpoint jsstring_eqb (a b : jsstring) : bool :=
  match a, b with
  | [], [] => true
  | x :: a', y :: b' => (x =? y) && jsstring_eqb a' b'
  | _, _ => false
  end.

(** Rendering of a non-negative integer inside a template literal. *)
Definition decimal (n : nat) : jsstring :=
  lit (NilEmpty.string_of_uint (Nat.to_uint n)).

(** Code units the two regular expressions of [normalizeId] talk about. *)
Definition hyphen : N := 45.

Definition isHyphen (c : N) : bool := c =? hyphen.

(** The character class [a-z0-9]. *)
Definition isLowerAlnum (c : N) : bool :=
  ((97 <=? c) && (c <=? 122)) || ((48 <=? c) && (c <=? 57)).

Definition isAscii (c : N) : bool := c <? 128.

(** What [toLowerCase] does to a single ASCII code unit: A-Z go to a-z. *)
Definition lowerAscii (c : N) : N :=
  if (65 <=? c) && (c <=? 90) then c + 32 else c.

(** [String.prototype.trim] strips WhiteSpace and LineTerminator code points
    (ECMAScript: TAB, LF, VT, FF, CR, SP, NBSP, U+1680, U+2000..U+200A,
    U+2028, U+2029, U+202F, U+205F, U+3000, U+FEFF). *)
Definition isWhiteSpace (c : N) : bool :=
  ((9 <=? c) && (c <=? 13)) || (c =? 32) || (c =? 160) || (c =? 5760)
  || ((8192 <=? c) && (c <=? 8202)) || (c =? 8232) || (c =? 8233)
  || (c =? 8239) || (c =? 8287) || (c =? 12288) || (c =? 65279).

Fixpoint trimStart (s : jsstring) : jsstring :=
  match s with
  | [] => []
  | c :: r => if isWhiteSpace c then trimStart r else s
  end.

Definition trimEnd (s : jsstring) : jsstring := rev (trimStart (rev s)).

Definition trim (s : jsstring) : jsstring := trimEnd (trimStart s).

(** [.replace(/[^a-z0-9]/g, '-')]: the pattern has no [u] flag, so it is
    applied code unit by code unit. *)
Definition replaceNonAlnum (s : jsstring) : jsstring :=
  map (fun c => if isLowerAlnum c then c else hyphen) s.

(** [.replace(/-+/g, '-')]: scanning left to right, each maximal run of
    hyphens is matched once and replaced by one hyphen.  [inRun] says that
    the code unit just consumed belongs to the run being matched. *)
Fixpoint replaceHyphenRuns (inRun : bool) (s : jsstring) : jsstring :=
  match s with
  | [] => []
  | c :: r =>
    if isHyphen c
    then if inRun then replaceHyphenRuns true r
         else hyphen :: replaceHyphenRuns true r
    else c :: replaceHyphenRuns false r
  end.

(** ** Shapes of identifiers *)

(** Recogniser of [^[a-z0-9]+(-[a-z0-9]+)*$], written as the automaton of
    the expression: [afterAlnum] holds when the previous code unit was in
    [a-z0-9], which is the only accepting state and the only state in which
    a hyphen may be read. *)
Fixpoint slugFrom (afterAlnum : bool) (s : jsstring) : bool :=
  match s with
  | [] => afterAlnum
  | c :: r =>
    if isLowerAlnum c then slugFrom true r
    else if isHyphen c then afterAlnum && slugFrom false r
    else false
  end.

Definition matchesSlug (s : jsstring) : bool := slugFrom false s.

(** The shape the specification asks of every identifier: empty, or a
    match. *)
Definition emptyOrSlug (s : jsstring) : bool :=
  match s with [] => true | _ => matchesSlug s end.

Definition isSlugChar (c : N) : bool := isLowerAlnum c || isHyphen c.

(** No two hyphens in a row; [prevHyphen] says the previous code unit was
    one. *)
Fixpoint singleHyphens (prevHyphen : bool) (s : jsstring) : bool :=
  match s with
  | [] => true
  | c :: r =>
    if isHyphen c then negb prevHyphen && singleHyphens true r
    else singleHyphens false r
  end.

(** Runs of [a-z0-9] separated by single hyphens, where a hyphen may also
    stand first or last: [^-?([a-z0-9]+(-[a-z0-9]+)*-?)?$]. *)
Definition looseSlug (s : jsstring) : bool :=
  forallb isSlugChar s && singleHyphens false s.

Definition startsWithHyphen (s : jsstring) : bool :=
  match s with c :: _ => isHyphen c | [] => false end.

Fixpoint endsWithHyphen (s : jsstring) : bool :=
  match s with
  | [] => false
  | c :: r => match r with [] => isHyphen c | _ => endsWithHyphen r end
  end.

(** ** The identifier normalizer *)

Section Normalizer.

(** [String.prototype.toLowerCase] of the host.  Its Unicode tables are
    not part of the repository; what is used of it is stated where
    needed. *)
Variable toLowerCase : jsstring -> jsstring.

Definition normalizeId (text : jsstring) : jsstring :=
  replaceHyphenRuns false (replaceNonAlnum (trim (toLowerCase text))).

End Normalizer.

(** On a string of ASCII code units [toLowerCase] lowers A-Z and changes
    nothing else. *)
Definition LowersAscii (toLowerCase : jsstring -> jsstring) : Prop :=
  forall s, forallb isAscii s = true -> toLowerCase s = map lowerAscii s.

(** A host whose [toLowerCase] only knows ASCII; every host agrees with it
    on ASCII input. *)
Definition asciiToLowerCase (s : jsstring) : jsstring := map lowerAscii s.

(** ** JavaScript values *)

#[local] Set Warnings "-register-all".

(** Objects carry their own properties in insertion order.  An array is an
    object of class [Array]; [HostObject] stands for an object of the run time
    that the code can only reach through a prototype chain. *)
Inductive value : Type :=
| VUndefined
| VNull
| VBool (b : bool)
| VNum (x : float)
| VStr (s : jsstring)
| VObject (cls : objclass) (props : list (jsstring * value))
with objclass : Type :=
| Plain
| Array (elems : list value)
| HostObject (name : string).

(** ToBoolean. *)
Definition truthy (v : value) : bool :=
  match v with
  | VUndefined | VNull => false
  | VBool b => b
  | VNum x => negb (PrimFloat.is_zero x || PrimFloat.is_nan x)
  | VStr s => match s with [] => false | _ => true end
  | VObject _ _ => true
  end.

Definition isArray (v : value) : bool :=
  match v with VObject (Array _) _ => true | _ => false end.

Fixpoint lookupProp (k : jsstring) (props : list (jsstring * value))
  : option value :=
  match props with
  | [] => None
  | (k', v) :: r => if jsstring_eqb k k' then Some v else lookupProp k r
  end.

(** [o.k] for a property name that no built-in prototype defines (every
    name the service reads with dot syntax is such a name): the own
    property, or [undefined]. *)
Definition getProp (o : value) (k : jsstring) : value :=
  match o with
  | VObject _ props =>
    match lookupProp k props with Some v => v | None => VUndefined end
  | _ => VUndefined
  end.

(** [o.k = v] on own properties: an existing property keeps its place, a
    new one goes last. *)
Fixpoint setIn (k : jsstring) (v : value) (props : list (jsstring * value))
  : list (jsstring * value) :=
  match props with
  | [] => [(k, v)]
  | (k', v') :: r =>
    if jsstring_eqb k k' then (k, v) :: r else (k', v') :: setIn k v r
  end.

(** Assignment to a property.  The module is an ES module, hence strict
    code: assigning to a property of [null], [undefined] or a primitive
    throws a TypeError ([None]). *)
Definition setProp (o : value) (k : jsstring) (v : value) : option value :=
  match o with
  | VObject c props => Some (VObject c (setIn k v props))
  | _ => None
  end.

Definition obj (props : list (string * value)) : value :=
  VObject Plain (map (fun kv => (lit (fst kv), snd kv)) props).

Definition arr (elems : list value) : value := VObject (Array elems) [].

Definition str (s : string) : value := VStr (lit s).

(** ** The host: run time, environment and remote services *)

(** How an awaited call to the store's point lookup settles: it rejects
    (or throws), or resolves with the pair of [data] and [error]. *)
Inductive SelectOutcome : Type :=
| SelectRejected
| SelectResolved (data error : value).

(** How an awaited call to the generation backend settles: it rejects, or
    resolves with a response whose [text] is a string or [undefined]. *)
Inductive GenerateOutcome : Type :=
| GenerateRejected
| GenerateResolved (text : option jsstring).

(** Everything the service takes from outside.  [Remote] is the state of
    the two remote services; each call may change it and its answer may
    depend on it in any way. *)
Record Host : Type := {
  toLowerCase : jsstring -> jsstring;
  JSON_parse : jsstring -> option value;
  SUPABASE_URL : option jsstring;
  SUPABASE_ANON_KEY : option jsstring;
  Remote : Type;
  terms_select_single : Remote -> jsstring -> Remote * SelectOutcome;
  terms_insert : Remote -> value -> Remote;
  generateContent : Remote -> jsstring -> Remote * GenerateOutcome
}.

Inductive ConsoleLevel : Type := Log | Warn | Error.

(** The steps of a run, in order: calls to the remote services, reads of
    the seed set, console output, calls of the progress callback, calls of
    the resolver by the seeder, and pauses. *)
Inductive Event : Type :=
| EvSelect (id : jsstring)
| EvLocalRead (key : jsstring)
| EvGenerate (contents : jsstring)
| EvInsert (row : value)
| EvConsole (level : ConsoleLevel) (msg : jsstring)
| EvProgress (log : jsstring)
| EvResolve (term : jsstring)
| EvSleep (ms : N).

(** How the promise of [getTermData] settles; an [Error] is modelled by its
    message. *)
Inductive Outcome : Type :=
| Fulfilled (data : value)
| Rejected (message : jsstring).

(** ** services/supabase.ts *)

(** [!!s] for [s : string | undefined]. *)
Definition isSet (s : option jsstring) : bool :=
  match s with Some (_ :: _) => true | _ => false end.

Definition isSupabaseConfigured (h : Host) : bool :=
  isSet (SUPABASE_URL h) && isSet (SUPABASE_ANON_KEY h).

(** The exported client: the real one when configured, else a mock whose
    lookup resolves with no data and whose insert does nothing. *)
Definition supabase_select (h : Host) (w : Remote h) (id : jsstring)
  : Remote h * SelectOutcome :=
  if isSupabaseConfigured h then terms_select_single h w id
  else (w, SelectResolved VNull VNull).

Definition supabase_insert (h : Host) (w : Remote h) (row : value) : Remote h :=
  if isSupabaseConfigured h then terms_insert h w row else w.

(** ** The seed set *)

Definition apiRecord : value :=
  obj [
    ("id", str "api");
    ("term", str "API");
    ("fullTerm", str "Application Programming Interface");
    ("category", str "Desenvolvimento");
    ("definition", str "APIs permitem que diferentes sistemas de software conversem entre si automaticamente, eliminando tarefas manuais e conectando sua empresa ao mercado digital.");
    ("phonetic", str "Ei-pi-ai");
    ("slang", VUndefined);
    ("translation", str "INTERFACE DE PROGRAMAÇÃO DE APLICATIVOS");
    ("examples", arr [
      obj [("title", str "AUTOMAÇÃO DE FLUXOS");
           ("description", str "Elimina a intervenção humana ao conectar processos operacionais críticos.")];
      obj [("title", str "SINCRONIZAÇÃO DE DADOS");
           ("description", str "Mantém Vendas, RH e Financeiro atualizados em todas as plataformas.")]]);
    ("analogies", arr [
      obj [("title", str "O GARÇOM NO RESTAURANTE");
           ("description", str "Você (cliente) pede ao garçom (API), que leva o pedido à cozinha (sistema) e traz o prato.")];
      obj [("title", str "TOMADA UNIVERSAL");
           ("description", str "Interface padrão para conectar qualquer aparelho à energia sem saber como a rede funciona.")]]);
    ("practicalUsage", obj [
      ("title", str "Na reunião de alinhamento (Daily)");
      ("content", str "Pessoal, a API de pagamentos caiu porque o gateway mudou a autenticação. Vou precisar refatorar a integração hoje à tarde pra gente voltar a vender.")]);
    ("relatedTerms", arr [str "Endpoint"; str "JSON"; str "REST";
                          str "Webhook"; str "Gateway"; str "SDK"])
  ].

(** Own properties of the [localDatabase] object. *)
Definition localDatabase : list (jsstring * value) := [(lit "api", apiRecord)].

(** Names that every plain object inherits from [Object.prototype]. *)
Definition objectPrototypeNames : list string :=
  ["constructor"; "__defineGetter__"; "__defineSetter__"; "hasOwnProperty";
   "__lookupGetter__"; "__lookupSetter__"; "isPrototypeOf";
   "propertyIsEnumerable"; "toString"; "valueOf"; "__proto__";
   "toLocaleString"].

Fixpoint inheritedFromObject (k : jsstring) (names : list string) : value :=
  match names with
  | [] => VUndefined
  | n :: r =>
    if jsstring_eqb k (lit n) then VObject (HostObject n) []
    else inheritedFromObject k r
  end.

(** [localDatabase[key]]: the own property, else what the prototype chain
    of an object literal gives for that name. *)
Definition localDatabase_get (key : jsstring) : value :=
  match lookupProp key localDatabase with
  | Some v => v
  | None => inheritedFromObject key objectPrototypeNames
  end.

(** ** The term resolver *)

(** A small error monad for code that may throw. *)
Definition bind {A B : Type} (m : option A) (k : A -> option B) : option B :=
  match m with Some a => k a | None => None end.

Notation "x <- m ;; k" := (bind m (fun x => k))
  (at level 61, m at next level, right associativity).

Definition quote : N := 34.

(** The [contents] template of the generation request. *)
Definition prompt (termId : jsstring) : jsstring :=
  lit "You are a technical glossary for business executives. Define the term "
  ++ [quote] ++ termId ++ [quote] ++
  lit ".
      
      Requirements:
      1. 'fullTerm': The full English name or expansion.
      2. 'translation': Translate the essence to Portuguese.
      3. 'definition': A clear, business-focused definition in Portuguese.
      4. 'phonetic': Portuguese pronunciation hint.
      5. 'slang': Common slang (or null).
      6. 'examples': 2 business contexts.
      7. 'analogies': 2 simple analogies.
      8. 'practicalUsage': Realistic sentence in Portuguese used by developers.
      9. 'relatedTerms': Up to 6 related keywords.
      10. 'category': Pick one: Desenvolvimento, Infraestrutura, Dados & IA, Segurança, Agile & Produto.
      ".

(** The message of the only error [getTermData] throws. *)
Definition notFound : jsstring := lit "Termo não encontrado.".

Definition placeholderUsage : value :=
  obj [("title", str "Contexto Geral");
       ("content", str "Termo usado frequentemente em reuniões de tecnologia.")].

(** [Array.isArray(data.k) ? data.k : []] *)
Definition arrayOrEmpty (data : value) (k : jsstring) : value :=
  if isArray (getProp data k) then getProp data k else arr [].

(** [a || b] *)
Definition orElse (a b : value) : value := if truthy a then a else b.

(** The statements between [JSON.parse] and the write-back: the id is
    forced, then the defaults are filled in.  [None] is a TypeError. *)
Definition applyDefaults (dbId : jsstring) (parsed : value) : option value :=
  d <- setProp parsed (lit "id") (VStr dbId) ;;
  d <- setProp d (lit "examples") (arrayOrEmpty d (lit "examples")) ;;
  d <- setProp d (lit "analogies") (arrayOrEmpty d (lit "analogies")) ;;
  d <- setProp d (lit "relatedTerms") (arrayOrEmpty d (lit "relatedTerms")) ;;
  d <- setProp d (lit "fullTerm")
         (orElse (getProp d (lit "fullTerm")) (getProp d (lit "term"))) ;;
  if negb (truthy (getProp d (lit "practicalUsage")))
  then setProp d (lit "practicalUsage") placeholderUsage
  else Some d.

(** The row handed to [insert]. *)
Definition termRow (dbId : jsstring) (data : value) : value :=
  obj [("id", VStr dbId);
       ("term", getProp data (lit "term"));
       ("category", getProp data (lit "category"));
       ("definition", getProp data (lit "definition"));
       ("content", data)].

Section Resolver.

Variable h : Host.

(** A. the persistent store.  The result is the stored record on a hit. *)
Definition storeTier (dbId : jsstring) (w : Remote h)
  : Remote h * list Event * option value :=
  if isSupabaseConfigured h then
    match supabase_select h w dbId with
    | (w', SelectResolved data _) =>
      if truthy data && truthy (getProp data (lit "content"))
      then (w', [EvSelect dbId; EvConsole Log (lit "Hit from Supabase:")],
            Some (getProp data (lit "content")))
      else (w', [EvSelect dbId], None)
    | (w', SelectRejected) =>
      (w', [EvSelect dbId;
            EvConsole Warn (lit "Supabase fetch failed, falling back to AI/Local")],
       None)
    end
  else (w, [], None).

(** D. the write-back: the insert is started and not awaited; what its
    [then] handler logs happens after the run. *)
Definition writeBack (dbId : jsstring) (data : value) (w : Remote h)
  : Remote h * list Event :=
  if isSupabaseConfigured h
  then (supabase_insert h w (termRow dbId data), [EvInsert (termRow dbId data)])
  else (w, []).

(** The [catch] of the generation block, followed by the final [throw]. *)
Definition generationCaught : list Event * Outcome :=
  ([EvConsole Error (lit "AI Generation failed:")], Rejected notFound).

(** C. the generation backend, from the request to the final [throw]. *)
Definition generationTier (termId dbId : jsstring) (w : Remote h)
  : Remote h * list Event * Outcome :=
  match generateContent h w (prompt termId) with
  | (w1, GenerateRejected) =>
    (w1, EvGenerate (prompt termId) :: fst generationCaught,
     snd generationCaught)
  | (w1, GenerateResolved text) =>
    match text with
    | Some (c :: t) =>
      match d <- JSON_parse h (c :: t) ;; applyDefaults dbId d with
      | Some data =>
        let '(w2, tr) := writeBack dbId data w1 in
        (w2, EvGenerate (prompt termId) :: tr, Fulfilled data)
      | None =>
        (w1, EvGenerate (prompt termId) :: fst generationCaught,
         snd generationCaught)
      end
    | _ => (w1, [EvGenerate (prompt termId)], Rejected notFound)
    end
  end.

Definition getTermData (termId : jsstring) (w : Remote h)
  : Remote h * list Event * Outcome :=
  let rawId := trim (toLowerCase h termId) in
  let dbId := normalizeId (toLowerCase h) termId in
  match storeTier dbId w with
  | (w1, tr1, Some content) => (w1, tr1, Fulfilled content)
  | (w1, tr1, None) =>
    (* B. the seed set *)
    if truthy (localDatabase_get rawId)
    then (w1, tr1 ++ [EvLocalRead rawId], Fulfilled (localDatabase_get rawId))
    else
      let '(w2, tr2, out) := generationTier termId dbId w1 in
      (w2, tr1 ++ EvLocalRead rawId :: tr2, out)
  end.

(** ** The batch seeder *)

Definition defaultList : list jsstring :=
  map lit
    ["Kubernetes"; "Docker"; "CI/CD"; "Microservices"; "Serverless";
     "React"; "Node.js"; "Python"; "Machine Learning"; "LLM";
     "Cybersecurity"; "Zero Trust"; "Firewall"; "VPN"; "Encryption";
     "Agile"; "Scrum"; "Kanban"; "MVP"; "Product Market Fit"].

(** [!term.trim()] *)
Definition isBlank (term : jsstring) : bool :=
  match trim term with [] => true | _ => false end.

Definition processing (term : jsstring) : jsstring :=
  lit "Processando: " ++ term ++ lit "...".

Definition saved (term : jsstring) : jsstring :=
  lit "✅ " ++ term ++ lit " salvo/verificado com sucesso.".

Definition failed (term : jsstring) : jsstring :=
  lit "❌ Erro ao processar " ++ term ++ lit ": Tente novamente.".

(** What the item's [try]/[catch] tells the callback. *)
Definition report (term : jsstring) (out : Outcome) : jsstring :=
  match out with
  | Fulfilled _ => saved term
  | Rejected _ => failed term
  end.

(** The [for ... of] loop.  The callback is taken to return normally;
    each of its calls is an [EvProgress]. *)
Fixpoint seedLoop (terms : list jsstring) (w : Remote h)
  : Remote h * list Event :=
  match terms with
  | [] => (w, [])
  | term :: rest =>
    if isBlank term then seedLoop rest w
    else
      let '(w1, tr, out) := getTermData term w in
      let '(w2, tr') := seedLoop rest w1 in
      (w2, EvProgress (processing term) :: EvResolve term :: tr
           ++ EvProgress (report term out) :: EvSleep 1500 :: tr')
  end.

(** [customList && customList.length > 0 ? customList : defaultList] *)
Definition listToProcess (customList : option (list jsstring))
  : list jsstring :=
  match customList with
  | Some (t :: l) => t :: l
  | _ => defaultList
  end.

Definition notConfigured : jsstring :=
  lit "ERRO: Supabase não configurado. Verifique suas chaves API.".

Definition starting (n : nat) : jsstring :=
  lit "Iniciando carga de " ++ decimal n ++ lit " termos...".

Definition finished : jsstring :=
  lit "Carga finalizada! Seu banco de dados agora está mais inteligente.".

Definition seedDatabase (customList : option (list jsstring)) (w : Remote h)
  : Remote h * list Event :=
  if negb (isSupabaseConfigured h) then (w, [EvProgress notConfigured])
  else
    let '(w1, tr) := seedLoop (listToProcess customList) w in
    (w1, EvProgress (starting (List.length (listToProcess customList)))
         :: EvProgress (lit "Atenção: Isso consome tokens da sua API Key.")
         :: tr ++ [EvProgress finished]).

End Resolver.

(** ** Observations on a run *)

Definition resolved (tr : list Event) : list jsstring :=
  flat_map (fun e => match e with EvResolve t => [t] | _ => [] end) tr.

Definition progress (tr : list Event) : list jsstring :=
  flat_map (fun e => match e with EvProgress m => [m] | _ => [] end) tr.

Definition generationCalls (tr : list Event) : list jsstring :=
  flat_map (fun e => match e with EvGenerate c => [c] | _ => [] end) tr.

Definition localReads (tr : list Event) : list jsstring :=
  flat_map (fun e => match e with EvLocalRead k => [k] | _ => [] end) tr.

Definition inserts (tr : list Event) : list value :=
  flat_map (fun e => match e with EvInsert r => [r] | _ => [] end) tr.

Definition isObject (v : value) : bool :=
  match v with VObject _ _ => true | _ => false end.

(** The outcome of a run. *)
Definition outcomeOf {W : Type} (run : W * list Event * Outcome) : Outcome :=
  snd run.

(** The items of a list that the seeder does not skip. *)
Definition nonBlank (terms : list jsstring) : list jsstring :=
  filter (fun t => negb (isBlank t)) terms.

(** What the callback is told about a sequence of attempted items, given
    how the resolution of each one settled: the announcement of the item,
    then its report. *)
Definition itemReports (items : list (jsstring * Outcome)) : list jsstring :=
  flat_map (fun p => [processing (fst p); report (fst p) (snd p)]) items.

(** ** Hosts to run the model on *)

(** A host whose remote services answer by a fixed script and keep no
    state, and whose [toLowerCase] is the ASCII one. *)
Definition scriptedHost (url key : option jsstring)
    (select : jsstring -> SelectOutcome)
    (generate : jsstring -> GenerateOutcome)
    (parse : jsstring -> option value) : Host :=
  {| toLowerCase := asciiToLowerCase;
     JSON_parse := parse;
     SUPABASE_URL := url;
     SUPABASE_ANON_KEY := key;
     Remote := unit;
     terms_select_single := fun w id => (w, select id);
     terms_insert := fun w _ => w;
     generateContent := fun w contents => (w, generate contents) |}.

Definition someUrl : option jsstring := Some (lit "https://project.supabase.co").
Definition someKey : option jsstring := Some (lit "anon-key").

Definition noRow : SelectOutcome := SelectResolved VNull VNull.

(** No store; the generation call fails. *)
Definition offlineHost : Host :=
  scriptedHost None None (fun _ => noRow) (fun _ => GenerateRejected)
    (fun _ => None).

(** No store; the backend answers with a response that has no text. *)
Definition silentHost : Host :=
  scriptedHost None None (fun _ => noRow)
    (fun _ => GenerateResolved None) (fun _ => None).

(** No store; the backend answers with text that is not JSON. *)
Definition garbledHost : Host :=
  scriptedHost None None (fun _ => noRow)
    (fun _ => GenerateResolved (Some (lit "Sorry, I cannot help.")))
    (fun _ => None).

(** The payload the scripted backend generates: it carries an id of its
    own and none of the optional fields. *)
Definition generatedPayload : value :=
  obj [("id", str "made-up-id"); ("term", str "Kubernetes");
       ("examples", str "none")].

(** A configured store that has no row; the backend generates
    [generatedPayload]. *)
Definition generatingHost : Host :=
  scriptedHost someUrl someKey (fun _ => noRow)
    (fun _ => GenerateResolved (Some (lit "{...}")))
    (fun _ => Some generatedPayload).

(** A payload that carries every field, and a configured store without
    rows whose backend generates it. *)
Definition fullPayload : value :=
  obj [("id", str "k8s"); ("term", str "Kubernetes");
       ("fullTerm", str "Kubernetes (K8s)");
       ("category", str "Infraestrutura");
       ("definition", str "Orquestra containers.");
       ("examples", arr [obj [("title", str "Deploy");
                              ("description", str "Escala sob demanda.")]]);
       ("analogies", arr []);
       ("practicalUsage", obj [("title", str "Na daily");
                               ("content", str "O cluster caiu.")]);
       ("relatedTerms", arr [str "Docker"])].

Definition fullPayloadHost : Host :=
  scriptedHost someUrl someKey (fun _ => noRow)
    (fun _ => GenerateResolved (Some (lit "{...}")))
    (fun _ => Some fullPayload).

(** A configured store that has a record for "api", different from the
    seed record and from what the backend would generate. *)
Definition storedApi : value :=
  obj [("id", str "api"); ("term", str "API (stored)")].

Definition apiRow : value := obj [("id", str "api"); ("content", storedApi)].

Definition storeWithApi : Host :=
  scriptedHost someUrl someKey
    (fun id => if jsstring_eqb id (lit "api")
               then SelectResolved apiRow VNull else noRow)
    (fun _ => GenerateResolved (Some (lit "{...}")))
    (fun _ => Some generatedPayload).

(** A configured store that has no row; the generation call fails for the
    term "B" and succeeds for every other term. *)
Definition flakyHost : Host :=
  scriptedHost someUrl someKey (fun _ => noRow)
    (fun contents => if jsstring_eqb contents (prompt (lit "B"))
                     then GenerateRejected
                     else GenerateResolved (Some (lit "{...}")))
    (fun _ => Some generatedPayload).

(** ** Further observations on a run *)

Definition traceOf {W : Type} (run : W * list Event * Outcome) : list Event :=
  snd (fst run).

Definition selects (tr : list Event) : list jsstring :=
  flat_map (fun e => match e with EvSelect id => [id] | _ => [] end) tr.

Definition sleeps (tr : list Event) : list N :=
  flat_map (fun e => match e with EvSleep ms => [ms] | _ => [] end) tr.

(** The events the resolver itself produces. *)
Definition isResolverEvent (e : Event) : bool :=
  match e with
  | EvSelect _ | EvLocalRead _ | EvGenerate _ | EvInsert _ | EvConsole _ _ => true
  | EvProgress _ | EvResolve _ | EvSleep _ => false
  end.

(** A host whose store is a table of rows in memory: an insert lands at
    once, a lookup finds the row inserted last under the id.  The backend
    generates [generatedPayload]. *)
Definition rowKey (row : value) : option jsstring :=
  match getProp row (lit "id") with VStr k => Some k | _ => None end.

Definition memoryStoreHost : Host :=
  {| toLowerCase := asciiToLowerCase;
     JSON_parse := fun _ => Some generatedPayload;
     SUPABASE_URL := someUrl;
     SUPABASE_ANON_KEY := someKey;
     Remote := list (jsstring * value);
     terms_select_single := fun table id =>
       match lookupProp id table with
       | Some row => (table, SelectResolved row VNull)
       | None => (table, noRow)
       end;
     terms_insert := fun table row =>
       match rowKey row with
       | Some k => (k, row) :: table
       | None => table
       end;
     generateContent := fun table _ =>
       (table, GenerateResolved (Some (lit "{...}"))) |}.

(** A configured store whose lookup fails; the generation call fails too. *)
Definition brokenStoreHost : Host :=
  scriptedHost someUrl someKey (fun _ => SelectRejected)
    (fun _ => GenerateRejected) (fun _ => None).

(** No store; the backend answers with the JSON text of [null]. *)
Definition nullPayloadHost : Host :=
  scriptedHost None None (fun _ => noRow)
    (fun _ => GenerateResolved (Some (lit "null"))) (fun _ => Some VNull).

(** ** The glossary page: filters over the term list *)

(** An entry of the list ([Partial<TermData>]): every field may be missing. *)
Record GlossaryItem : Type := {
  item_id : option jsstring;
  item_term : option jsstring;
  item_category : option jsstring;
  item_definition : option jsstring
}.

(** The three pieces of filter state of the page. *)
Record Filters : Type := {
  activeCat : jsstring;
  searchTerm : jsstring;
  activeLetter : option jsstring
}.

Definition initialFilters : Filters :=
  {| activeCat := lit "Todos"; searchTerm := []; activeLetter := None |}.


(** [s || ''] for an optional string. *)
Definition orEmpty (s : option jsstring) : jsstring :=
  match s with Some (c :: r) => c :: r | _ => [] end.

(** [a === b] for an optional string [a] and a string [b]. *)
Definition strictEq (a : option jsstring) (b : jsstring) : bool :=
  match a with Some s => jsstring_eqb s b | None => false end.

Definition isEmpty (s : jsstring) : bool :=
  match s with [] => true | _ => false end.

(** [s.charAt(0)] *)
Definition charAt0 (s : jsstring) : jsstring :=
  match s with [] => [] | c :: _ => [c] end.

Fixpoint startsWith (s sub : jsstring) : bool :=
  match sub, s with
  | [], _ => true
  | _ :: _, [] => false
  | y :: sub', x :: s' => (x =? y) && startsWith s' sub'
  end.

(** [s.includes(sub)] *)
Fixpoint includes (s sub : jsstring) : bool :=
  startsWith s sub
  || match s with [] => false | _ :: r => includes r sub end.

(** [/^[A-Z]$/.test(s)] *)
Definition isUpperLetter (s : jsstring) : bool :=
  match s with
  | [c] => (65 <=? c) && (c <=? 90)
  | _ => false
  end.

Section Glossary.

(** [toLowerCase] and [toUpperCase] of the host. *)
Variable lower upper : jsstring -> jsstring.

Definition catMatch (f : Filters) (item : GlossaryItem) : bool :=
  jsstring_eqb (activeCat f) (lit "Todos")
  || strictEq (item_category item) (activeCat f)
  || (jsstring_eqb (activeCat f) (lit "Infraestrutura")
      && strictEq (item_category item) (lit "DevOps")).

Definition searchMatch (f : Filters) (item : GlossaryItem) : bool :=
  let searchLower := lower (searchTerm f) in
  let termLower := lower (orEmpty (item_term item)) in
  let defLower := lower (orEmpty (item_definition item)) in
  isEmpty (searchTerm f)
  || includes termLower searchLower
  || includes defLower searchLower.

Definition letterMatch (f : Filters) (item : GlossaryItem) : bool :=
  let firstChar := upper (charAt0 (orEmpty (item_term item))) in
  let isAlpha := isUpperLetter firstChar in
  match activeLetter f with
  | None | Some [] => true
  | Some letter =>
    if jsstring_eqb letter (lit "#") then negb isAlpha
    else jsstring_eqb firstChar letter
  end.

(** The callback given to [terms.filter] in [filteredTerms]. *)
Definition shown (f : Filters) (item : GlossaryItem) : bool :=
  if negb (isEmpty (searchTerm f))
  then catMatch f item && searchMatch f item
  else catMatch f item && letterMatch f item.

End Glossary.

(** What the user does to the filters. *)
Inductive FilterAction : Type :=
| SearchChange (text : jsstring)
| LetterClick (char : jsstring)
| CategoryClick (cat : jsstring)
| ClearFilters.

(** [handleSearchChange] *)
Definition handleSearchChange (text : jsstring) (f : Filters) : Filters :=
  {| activeCat := activeCat f;
     searchTerm := text;
     activeLetter := if negb (isEmpty text) then None else activeLetter f |}.

(** [handleLetterClick] *)
Definition handleLetterClick (char : jsstring) (f : Filters) : Filters :=
  if strictEq (activeLetter f) char
  then {| activeCat := activeCat f; searchTerm := searchTerm f;
          activeLetter := None |}
  else {| activeCat := activeCat f; searchTerm := [];
          activeLetter := Some char |}.

Definition act (f : Filters) (a : FilterAction) : Filters :=
  match a with
  | SearchChange text => handleSearchChange text f
  | LetterClick char => handleLetterClick char f
  | CategoryClick cat =>
    {| activeCat := cat; searchTerm := searchTerm f;
       activeLetter := activeLetter f |}
  | ClearFilters => initialFilters
  end.

Definition afterActions (actions : list FilterAction) : Filters :=
  fold_left act actions initialFilters.

(** * Properties *)

(** ** Code units *)

Lemma isHyphen_eq (c : N) : isHyphen c = true -> c = hyphen.
Proof. unfold isHyphen. apply N.eqb_eq. Qed.

Lemma alnum_not_hyphen (c : N) : isLowerAlnum c = true -> isHyphen c = false.
Proof.
  unfold isLowerAlnum, isHyphen, hyphen. intros H.
  apply orb_true_iff in H. rewrite !andb_true_iff, !N.leb_le in H.
  apply N.eqb_neq. lia.
Qed.

Lemma slugChar_bounds (c : N) :
  isSlugChar c = true -> c = 45 \/ (48 <= c <= 57) \/ (97 <= c <= 122).
Proof.
  unfold isSlugChar, isLowerAlnum, isHyphen, hyphen. intros H.
  rewrite !orb_true_iff, !andb_true_iff, !N.leb_le, N.eqb_eq in H. lia.
Qed.

Lemma slugChar_not_space (c : N) : isSlugChar c = true -> isWhiteSpace c = false.
Proof.
  intros H. apply slugChar_bounds in H. apply not_true_is_false. intros W.
  unfold isWhiteSpace in W.
  rewrite !orb_true_iff, !andb_true_iff, !N.leb_le, !N.eqb_eq in W. lia.
Qed.

Lemma slugChar_ascii (c : N) : isSlugChar c = true -> isAscii c = true.
Proof.
  intros H. apply slugChar_bounds in H. unfold isAscii. apply N.ltb_lt. lia.
Qed.

Lemma slugChar_lower (c : N) : isSlugChar c = true -> lowerAscii c = c.
Proof.
  intros H. apply slugChar_bounds in H. unfold lowerAscii.
  destruct ((65 <=? c) && (c <=? 90)) eqn:E; [|reflexivity].
  rewrite andb_true_iff, !N.leb_le in E. lia.
Qed.

(** ** The two replacements *)

Lemma replaceNonAlnum_chars (s : jsstring) :
  forallb isSlugChar (replaceNonAlnum s) = true.
Proof.
  induction s as [|c r IH]; simpl; [reflexivity|].
  rewrite IH, andb_true_r. unfold isSlugChar.
  destruct (isLowerAlnum c) eqn:E; [now rewrite E|reflexivity].
Qed.

Lemma replaceHyphenRuns_chars (b : bool) (s : jsstring) :
  forallb isSlugChar s = true ->
  forallb isSlugChar (replaceHyphenRuns b s) = true.
Proof.
  revert b. induction s as [|c r IH]; intros b H; simpl in *; [reflexivity|].
  apply andb_true_iff in H as [Hc Hr].
  destruct (isHyphen c); [destruct b|]; simpl.
  - now apply IH.
  - change (isSlugChar hyphen) with true. now apply IH.
  - rewrite Hc. now apply IH.
Qed.

Lemma replaceHyphenRuns_single (b : bool) (s : jsstring) :
  singleHyphens b (replaceHyphenRuns b s) = true.
Proof.
  revert b. induction s as [|c r IH]; intros b; simpl; [reflexivity|].
  destruct (isHyphen c) eqn:E.
  - destruct b; [apply IH|]. simpl. apply IH.
  - simpl. rewrite E. apply IH.
Qed.

Lemma replaceNonAlnum_fixed (s : jsstring) :
  forallb isSlugChar s = true -> replaceNonAlnum s = s.
Proof.
  induction s as [|c r IH]; simpl; intros H; [reflexivity|].
  apply andb_true_iff in H as [Hc Hr]. rewrite (IH Hr). f_equal.
  unfold isSlugChar in Hc. destruct (isLowerAlnum c); [reflexivity|].
  symmetry. now apply isHyphen_eq.
Qed.

Lemma replaceHyphenRuns_fixed (b : bool) (s : jsstring) :
  singleHyphens b s = true -> replaceHyphenRuns b s = s.
Proof.
  revert b. induction s as [|c r IH]; intros b H; simpl in *; [reflexivity|].
  destruct (isHyphen c) eqn:E.
  - apply andb_true_iff in H as [Hb Hr]. destruct b; [discriminate|].
    rewrite (IH _ Hr). f_equal. symmetry. now apply isHyphen_eq.
  - now rewrite (IH _ H).
Qed.

(** ** Trimming *)

Lemma trimStart_fixed (s : jsstring) :
  forallb isSlugChar s = true -> trimStart s = s.
Proof.
  destruct s as [|c r]; simpl; [reflexivity|]. intros H.
  apply andb_true_iff in H as [Hc _]. now rewrite (slugChar_not_space c Hc).
Qed.

Lemma forallb_rev {A : Type} (f : A -> bool) (l : list A) :
  forallb f l = true -> forallb f (rev l) = true.
Proof.
  rewrite !forallb_forall. intros H x Hx. apply H. now apply in_rev.
Qed.

Lemma trim_fixed (s : jsstring) : forallb isSlugChar s = true -> trim s = s.
Proof.
  intros H. unfold trim, trimEnd. rewrite (trimStart_fixed s H).
  rewrite (trimStart_fixed (rev s) (forallb_rev _ _ H)). apply rev_involutive.
Qed.

Lemma lower_fixed (s : jsstring) :
  forallb isSlugChar s = true -> map lowerAscii s = s.
Proof.
  induction s as [|c r IH]; simpl; intros H; [reflexivity|].
  apply andb_true_iff in H as [Hc Hr].
  now rewrite (slugChar_lower c Hc), (IH Hr).
Qed.

Lemma slugChars_ascii (s : jsstring) :
  forallb isSlugChar s = true -> forallb isAscii s = true.
Proof.
  induction s as [|c r IH]; simpl; intros H; [reflexivity|].
  apply andb_true_iff in H as [Hc Hr].
  now rewrite (slugChar_ascii c Hc), (IH Hr).
Qed.

Lemma asciiToLowerCase_LowersAscii : LowersAscii asciiToLowerCase.
Proof. intros s _. reflexivity. Qed.

(** ** Shape of the identifiers *)

Lemma normalizeId_chars (lower : jsstring -> jsstring) (s : jsstring) :
  forallb isSlugChar (normalizeId lower s) = true.
Proof.
  unfold normalizeId. apply replaceHyphenRuns_chars, replaceNonAlnum_chars.
Qed.

Lemma normalizeId_single (lower : jsstring -> jsstring) (s : jsstring) :
  singleHyphens false (normalizeId lower s) = true.
Proof. unfold normalizeId. apply replaceHyphenRuns_single. Qed.

Lemma singleHyphens_after_hyphen (s : jsstring) :
  singleHyphens true s = true -> startsWithHyphen s = false.
Proof.
  destruct s as [|c r]; simpl; [reflexivity|].
  destruct (isHyphen c); [discriminate|reflexivity].
Qed.

(** On a string of the loose shape the automaton accepts exactly when no
    hyphen stands at either end. *)
Lemma slugFrom_loose (a b : bool) (s : jsstring) :
  forallb isSlugChar s = true ->
  singleHyphens b s = true ->
  slugFrom a s =
  match s with
  | [] => a
  | _ => (a || negb (startsWithHyphen s)) && negb (endsWithHyphen s)
  end.
Proof.
  revert a b. induction s as [|c r IH]; intros a b Hc Hs; [reflexivity|].
  simpl in Hc. apply andb_true_iff in Hc as [Hc Hr].
  cbn [slugFrom singleHyphens startsWithHyphen endsWithHyphen] in *.
  unfold isSlugChar in Hc.
  destruct (isLowerAlnum c) eqn:EA.
  - rewrite (alnum_not_hyphen c EA) in *.
    rewrite (IH true false Hr Hs). rewrite orb_true_r.
    destruct r; reflexivity.
  - simpl in Hc. rewrite Hc in *.
    apply andb_true_iff in Hs as [_ Hs].
    rewrite (IH false true Hr Hs).
    rewrite (singleHyphens_after_hyphen r Hs).
    destruct r; simpl; now rewrite orb_false_r.
Qed.

(** Hosts agree on ASCII input. *)
Lemma normalizeId_ascii (lower : jsstring -> jsstring) (s : jsstring) :
  LowersAscii lower -> forallb isAscii s = true ->
  normalizeId lower s = normalizeId asciiToLowerCase s.
Proof. intros L A. unfold normalizeId. now rewrite (L s A). Qed.

Example normalizeId_react_js :
  normalizeId asciiToLowerCase (lit "React JS") = lit "react-js".
Proof. reflexivity. Qed.

Example normalizeId_ci_cd :
  normalizeId asciiToLowerCase (lit "CI/CD") = lit "ci-cd".
Proof. reflexivity. Qed.

(** On every host "C++" normalizes to "c-" and "!" to "-". *)
Lemma normalizeId_edge_hyphens (lower : jsstring -> jsstring) :
  LowersAscii lower ->
  normalizeId lower (lit "C++") = lit "c-"
  /\ normalizeId lower (lit "!") = lit "-".
Proof.
  intros L. split; rewrite (normalizeId_ascii lower _ L); reflexivity.
Qed.

(** C1, as stated, fails: a term that ends (or begins) with a character
    outside [a-z0-9] keeps a hyphen at that end.  "C++" normalizes to "c-",
    which is neither empty nor a match of [^[a-z0-9]+(-[a-z0-9]+)*$]. *)
Lemma normalizeId_trailing_hyphen :
  normalizeId asciiToLowerCase (lit "C++") = lit "c-"
  /\ emptyOrSlug (normalizeId asciiToLowerCase (lit "C++")) = false.
Proof. split; reflexivity. Qed.

(** C1, amended: for every input string the output of [normalizeId] is made
    of characters of [a-z0-9] and hyphens with no two hyphens adjacent
    (runs of lowercase alphanumerics separated by single hyphens, with at
    most one hyphen before the first run and one after the last); it is
    empty or matches [^[a-z0-9]+(-[a-z0-9]+)*$] exactly when it neither
    starts nor ends with a hyphen. *)
Theorem normalizeId_loose_slug (lower : jsstring -> jsstring) (s : jsstring) :
  looseSlug (normalizeId lower s) = true
  /\ emptyOrSlug (normalizeId lower s)
     = negb (startsWithHyphen (normalizeId lower s))
       && negb (endsWithHyphen (normalizeId lower s)).
Proof.
  pose proof (normalizeId_chars lower s) as Hc.
  pose proof (normalizeId_single lower s) as Hs.
  split.
  - unfold looseSlug. now rewrite Hc, Hs.
  - unfold emptyOrSlug, matchesSlug.
    rewrite (slugFrom_loose false false _ Hc Hs).
    destruct (normalizeId lower s); reflexivity.
Qed.

(** C9: the identifier normalizer is idempotent. *)
Theorem normalizeId_idempotent (lower : jsstring -> jsstring) (x : jsstring) :
  LowersAscii lower ->
  normalizeId lower (normalizeId lower x) = normalizeId lower x.
Proof.
  intros L.
  pose proof (normalizeId_chars lower x) as Hc.
  pose proof (normalizeId_single lower x) as Hs.
  unfold normalizeId at 1.
  rewrite (L _ (slugChars_ascii _ Hc)), (lower_fixed _ Hc).
  rewrite (trim_fixed _ Hc), (replaceNonAlnum_fixed _ Hc).
  now apply replaceHyphenRuns_fixed.
Qed.

Lemma normalizeId_idempotent_witness :
  LowersAscii asciiToLowerCase
  /\ normalizeId asciiToLowerCase (normalizeId asciiToLowerCase (lit "  C++ & React JS "))
     = normalizeId asciiToLowerCase (lit "  C++ & React JS ").
Proof.
  split.
  - intros s _. reflexivity.
  - apply (normalizeId_idempotent asciiToLowerCase (lit "  C++ & React JS ")).
    intros s _. reflexivity.
Defined.

(** ** Properties of objects *)

Lemma jsstring_eqb_eq (a b : jsstring) : jsstring_eqb a b = true -> a = b.
Proof.
  revert b. induction a as [|x a IH]; intros [|y b] H; simpl in H;
    try discriminate; [reflexivity|].
  apply andb_true_iff in H as [Hx Hr]. apply N.eqb_eq in Hx.
  now rewrite Hx, (IH b Hr).
Qed.

Lemma jsstring_eqb_refl (a : jsstring) : jsstring_eqb a a = true.
Proof. induction a as [|x a IH]; simpl; [reflexivity|]. now rewrite N.eqb_refl. Qed.

Lemma lookupProp_setIn_eq k v props : lookupProp k (setIn k v props) = Some v.
Proof.
  induction props as [|[k' v'] r IH]; simpl.
  - now rewrite jsstring_eqb_refl.
  - destruct (jsstring_eqb k k') eqn:E; simpl.
    + now rewrite jsstring_eqb_refl.
    + now rewrite E.
Qed.

Lemma lookupProp_setIn_ne k k' v props :
  jsstring_eqb k k' = false ->
  lookupProp k (setIn k' v props) = lookupProp k props.
Proof.
  intros N. induction props as [|[k2 v2] r IH]; simpl.
  - now rewrite N.
  - destruct (jsstring_eqb k' k2) eqn:E; simpl.
    + apply jsstring_eqb_eq in E. subst k2. now rewrite N.
    + now rewrite IH.
Qed.

Lemma getProp_set_eq c props k v : getProp (VObject c (setIn k v props)) k = v.
Proof. unfold getProp. now rewrite lookupProp_setIn_eq. Qed.

Lemma getProp_set_ne c props k k' v :
  jsstring_eqb k k' = false ->
  getProp (VObject c (setIn k' v props)) k = getProp (VObject c props) k.
Proof. intros N. unfold getProp. now rewrite lookupProp_setIn_ne. Qed.

Lemma isObject_truthy (v : value) : isObject v = true -> truthy v = true.
Proof. destruct v; simpl; congruence. Qed.

(** ** Properties of the resolver's tiers *)

(** The seed set has object records only. *)
Lemma localDatabase_records key record :
  lookupProp key localDatabase = Some record ->
  localDatabase_get key = record /\ truthy record = true.
Proof.
  unfold localDatabase_get. intros H. rewrite H. split; [reflexivity|].
  unfold localDatabase in H. simpl in H.
  destruct (jsstring_eqb key (lit "api")); [|discriminate].
  injection H as <-. reflexivity.
Qed.

Lemma storeTier_unconfigured h dbId w :
  isSupabaseConfigured h = false -> storeTier h dbId w = (w, [], None).
Proof. intros C. unfold storeTier. now rewrite C. Qed.

(** The store tier only looks up the store and writes to the console. *)
Lemma storeTier_trace h dbId w w1 tr1 r :
  storeTier h dbId w = (w1, tr1, r) ->
  generationCalls tr1 = [] /\ localReads tr1 = [] /\ inserts tr1 = []
  /\ resolved tr1 = [] /\ progress tr1 = [].
Proof.
  unfold storeTier. intros H.
  destruct (isSupabaseConfigured h).
  - destruct (supabase_select h w dbId) as [w0 [|data err]].
    + injection H as _ <- _. repeat split.
    + destruct (truthy data && truthy (getProp data (lit "content")));
        injection H as _ <- _; repeat split.
  - injection H as _ <- _. repeat split.
Qed.

(** C3: when the store is configured and its lookup by the normalized id
    yields a row that holds a record, [getTermData] returns that record
    unchanged; the seed set is not read and the generation backend is not
    called, whatever they would have answered. *)
Theorem store_record_wins (h : Host) (termId : jsstring) (w w' : Remote h)
    (row err record : value) :
  isSupabaseConfigured h = true ->
  terms_select_single h w (normalizeId (toLowerCase h) termId)
    = (w', SelectResolved row err) ->
  isObject row = true ->
  getProp row (lit "content") = record ->
  isObject record = true ->
  exists tr,
    getTermData h termId w = (w', tr, Fulfilled record)
    /\ tr = [EvSelect (normalizeId (toLowerCase h) termId);
             EvConsole Log (lit "Hit from Supabase:")]
    /\ localReads tr = [] /\ generationCalls tr = [] /\ inserts tr = [].
Proof.
  intros C S Hrow Hcontent Hrec. eexists. split; [|repeat split].
  unfold getTermData, storeTier, supabase_select. rewrite C, S, Hcontent.
  now rewrite (isObject_truthy row Hrow), (isObject_truthy record Hrec).
Qed.

(** C4: when the store is unconfigured and the seed set has an entry under
    the lower-cased, trimmed raw text, [getTermData] returns that entry and
    the generation backend is not called. *)
Theorem seed_record_without_generation (h : Host) (termId : jsstring)
    (w : Remote h) (record : value) :
  isSupabaseConfigured h = false ->
  lookupProp (trim (toLowerCase h termId)) localDatabase = Some record ->
  exists tr,
    getTermData h termId w = (w, tr, Fulfilled record)
    /\ tr = [EvLocalRead (trim (toLowerCase h termId))]
    /\ generationCalls tr = [].
Proof.
  intros C L. destruct (localDatabase_records _ _ L) as [G T].
  eexists. split; [|split; reflexivity].
  unfold getTermData. rewrite (storeTier_unconfigured h _ w C), G, T.
  reflexivity.
Qed.

(** ** Properties of the post-processing *)

Ltac props :=
  repeat first
    [ rewrite getProp_set_eq
    | rewrite getProp_set_ne by reflexivity
    | rewrite lookupProp_setIn_eq
    | rewrite lookupProp_setIn_ne by reflexivity ].

Lemma applyDefaults_total dbId c props :
  exists data, applyDefaults dbId (VObject c props) = Some data.
Proof.
  unfold applyDefaults. cbn [setProp bind].
  match goal with |- exists _, (if ?b then _ else _) = _ => destruct b end;
    eexists; reflexivity.
Qed.

Lemma applyDefaults_id dbId parsed data :
  applyDefaults dbId parsed = Some data ->
  getProp data (lit "id") = VStr dbId.
Proof.
  unfold applyDefaults. destruct parsed as [| | | | |c props]; try discriminate.
  cbn [setProp bind]. intros H.
  match type of H with (if ?b then _ else _) = _ => destruct b end;
    injection H as <-; props; reflexivity.
Qed.

Lemma applyDefaults_sequences dbId c props data k :
  applyDefaults dbId (VObject c props) = Some data ->
  In k [lit "examples"; lit "analogies"; lit "relatedTerms"] ->
  isArray (getProp (VObject c props) k) = false ->
  getProp data k = arr [].
Proof.
  unfold applyDefaults. cbn [setProp bind]. intros H K A.
  destruct K as [<-|[<-|[<-|[]]]];
    match type of H with (if ?b then _ else _) = _ => destruct b end;
    injection H as <-; props; unfold arrayOrEmpty; props; now rewrite A.
Qed.

Lemma applyDefaults_fullTerm dbId c props data :
  applyDefaults dbId (VObject c props) = Some data ->
  lookupProp (lit "fullTerm") props = None ->
  getProp data (lit "fullTerm") = getProp (VObject c props) (lit "term").
Proof.
  unfold applyDefaults. cbn [setProp bind]. intros H A.
  match type of H with (if ?b then _ else _) = _ => destruct b end;
    injection H as <-; props; unfold orElse, getProp; props; now rewrite A.
Qed.

Lemma applyDefaults_practicalUsage dbId c props data :
  applyDefaults dbId (VObject c props) = Some data ->
  lookupProp (lit "practicalUsage") props = None ->
  getProp data (lit "practicalUsage") = placeholderUsage.
Proof.
  unfold applyDefaults. cbn [setProp bind]. intros H A.
  revert H. unfold getProp at 1. props. rewrite A. cbn [truthy negb].
  intros H. injection H as <-. now props.
Qed.

Lemma store_record_wins_witness :
  exists tr,
    getTermData storeWithApi (lit " API ") tt = (tt, tr, Fulfilled storedApi)
    /\ tr = [EvSelect (normalizeId (toLowerCase storeWithApi) (lit " API "));
             EvConsole Log (lit "Hit from Supabase:")]
    /\ localReads tr = [] /\ generationCalls tr = [] /\ inserts tr = [].
Proof.
  apply (store_record_wins storeWithApi (lit " API ") tt tt apiRow VNull storedApi);
    reflexivity.
Defined.

Lemma seed_record_without_generation_witness :
  exists tr,
    getTermData offlineHost (lit " API ") tt = (tt, tr, Fulfilled apiRecord)
    /\ tr = [EvLocalRead (trim (toLowerCase offlineHost (lit " API ")))]
    /\ generationCalls tr = [].
Proof.
  apply (seed_record_without_generation offlineHost (lit " API ") tt apiRecord);
    reflexivity.
Defined.

(** The generation tier reads no seed, resolves nothing for the seeder and
    calls no callback. *)
Lemma writeBack_trace h dbId data w w' tr :
  writeBack h dbId data w = (w', tr) ->
  localReads tr = [] /\ resolved tr = [] /\ progress tr = []
  /\ generationCalls tr = [].
Proof.
  unfold writeBack. destruct (isSupabaseConfigured h);
    intros H; injection H as _ <-; repeat split.
Qed.

Lemma generationTier_trace h termId dbId w w' tr out :
  generationTier h termId dbId w = (w', tr, out) ->
  resolved tr = [] /\ progress tr = [].
Proof.
  unfold generationTier.
  destruct (generateContent h w (prompt termId)) as [w1 [|[[|c t]|]]];
    try (intros H; injection H as _ <- _; split; reflexivity).
  destruct (d <- JSON_parse h (c :: t);; applyDefaults dbId d) as [data|].
  - destruct (writeBack h dbId data w1) as [w2 tr2] eqn:W.
    apply writeBack_trace in W as (_ & R & P & _).
    intros H; injection H as _ <- _. now split.
  - intros H; injection H as _ <- _; split; reflexivity.
Qed.

(** A record that comes out of the generation tier went through
    [applyDefaults]. *)
Lemma generationTier_fulfilled h termId dbId w w' tr data :
  generationTier h termId dbId w = (w', tr, Fulfilled data) ->
  exists text parsed,
    JSON_parse h text = Some parsed /\ applyDefaults dbId parsed = Some data.
Proof.
  unfold generationTier.
  destruct (generateContent h w (prompt termId)) as [w1 [|[[|c t]|]]];
    try discriminate.
  destruct (JSON_parse h (c :: t)) as [parsed|] eqn:P; [|discriminate].
  cbn [bind]. destruct (applyDefaults dbId parsed) as [d|] eqn:A; [|discriminate].
  destruct (writeBack h dbId d w1). intros H. injection H as _ _ <-.
  now exists (c :: t), parsed.
Qed.

Lemma getTermData_trace h termId w w' tr out :
  getTermData h termId w = (w', tr, out) ->
  resolved tr = [] /\ progress tr = [].
Proof.
  unfold getTermData.
  destruct (storeTier h _ w) as [[w1 tr1] r] eqn:S.
  apply storeTier_trace in S as (_ & _ & _ & R1 & P1).
  destruct r as [content|].
  - intros H; injection H as _ <- _. now split.
  - destruct (truthy (localDatabase_get _)).
    + intros H; injection H as _ <- _.
      unfold resolved, progress in *. rewrite !flat_map_app, R1, P1. now split.
    + destruct (generationTier h termId _ w1) as [[w2 tr2] o] eqn:G.
      apply generationTier_trace in G as [R2 P2].
      intros H; injection H as _ <- _.
      unfold resolved, progress in *.
      rewrite !flat_map_app, R1, P1. simpl. now split.
Qed.

(** C5: whenever [getTermData] succeeds through the generation tier, the
    [id] of the record it returns is [normalizeId] of the raw input,
    whatever [id] the backend put in its payload. *)
Theorem generated_id_is_normalized (h : Host) (termId : jsstring)
    (w w' : Remote h) (tr : list Event) (data : value) :
  getTermData h termId w = (w', tr, Fulfilled data) ->
  generationCalls tr <> [] ->
  getProp data (lit "id") = VStr (normalizeId (toLowerCase h) termId).
Proof.
  unfold getTermData.
  destruct (storeTier h _ w) as [[w1 tr1] r] eqn:S.
  apply storeTier_trace in S as (G1 & _).
  destruct r as [content|].
  - intros H; injection H as _ <- _. now intros [].
  - destruct (truthy (localDatabase_get _)).
    + intros H; injection H as _ <- _.
      unfold generationCalls in *. rewrite flat_map_app, G1. now intros [].
    + destruct (generationTier h termId _ w1) as [[w2 tr2] o] eqn:G.
      intros H; injection H as _ _ ->. intros _.
      apply generationTier_fulfilled in G as (text & parsed & _ & A).
      now apply applyDefaults_id in A.
Qed.

Lemma generated_id_is_normalized_witness :
  exists tr data,
    getTermData generatingHost (lit "C++ Builder") tt = (tt, tr, Fulfilled data)
    /\ generationCalls tr <> []
    /\ getProp generatedPayload (lit "id") = str "made-up-id"
    /\ getProp data (lit "id") = str "c-builder".
Proof.
  destruct (getTermData generatingHost (lit "C++ Builder") tt)
    as [[w' tr] out] eqn:E.
  destruct out as [data|m]; [|now vm_compute in E].
  assert (G : generationCalls tr <> []).
  { vm_compute in E. injection E as _ <- _. discriminate. }
  pose proof (generated_id_is_normalized generatingHost (lit "C++ Builder")
                tt w' tr data E G) as I.
  destruct w'. exists tr, data. repeat split; assumption.
Defined.

(** C6: when the generation tier is reached and the backend's text parses
    to an object, [getTermData] returns a record in which [examples],
    [analogies] and [relatedTerms] are the empty sequence wherever the
    payload's field is absent or not an array, [practicalUsage] is the
    fixed placeholder titled "Contexto Geral" when the payload has none,
    and [fullTerm] is the payload's [term] when the payload has none. *)
Theorem generated_defaults (h : Host) (termId : jsstring)
    (w w1 w2 : Remote h) (tr1 : list Event) (text : jsstring)
    (c : objclass) (props : list (jsstring * value)) :
  storeTier h (normalizeId (toLowerCase h) termId) w = (w1, tr1, None) ->
  truthy (localDatabase_get (trim (toLowerCase h termId))) = false ->
  generateContent h w1 (prompt termId) = (w2, GenerateResolved (Some text)) ->
  text <> [] ->
  JSON_parse h text = Some (VObject c props) ->
  exists w3 tr data,
    getTermData h termId w = (w3, tr, Fulfilled data)
    /\ (forall k, In k [lit "examples"; lit "analogies"; lit "relatedTerms"] ->
          isArray (getProp (VObject c props) k) = false ->
          getProp data k = arr [])
    /\ (lookupProp (lit "practicalUsage") props = None ->
          getProp data (lit "practicalUsage") = placeholderUsage
          /\ getProp placeholderUsage (lit "title") = str "Contexto Geral")
    /\ (lookupProp (lit "fullTerm") props = None ->
          getProp data (lit "fullTerm") = getProp (VObject c props) (lit "term")).
Proof.
  intros S L G T P.
  destruct (applyDefaults_total (normalizeId (toLowerCase h) termId) c props)
    as [data A].
  destruct (writeBack h (normalizeId (toLowerCase h) termId) data w2)
    as [w3 tr3] eqn:W.
  exists w3, (tr1 ++ EvLocalRead (trim (toLowerCase h termId))
                  :: EvGenerate (prompt termId) :: tr3), data.
  split; [|split; [|split]].
  - unfold getTermData. rewrite S, L. unfold generationTier. rewrite G.
    destruct text as [|c0 t]; [now destruct T|].
    rewrite P. cbn [bind]. now rewrite A, W.
  - intros k K N. now apply (applyDefaults_sequences _ c props data k A K N).
  - intros N. split; [|reflexivity].
    now apply (applyDefaults_practicalUsage _ c props data A N).
  - intros N. now apply (applyDefaults_fullTerm _ c props data A N).
Qed.

Lemma generated_defaults_witness :
  exists w3 tr data,
    getTermData generatingHost (lit "Kubernetes") tt = (w3, tr, Fulfilled data)
    /\ (forall k, In k [lit "examples"; lit "analogies"; lit "relatedTerms"] ->
          isArray (getProp generatedPayload k) = false ->
          getProp data k = arr [])
    /\ (lookupProp (lit "practicalUsage")
          (map (fun kv => (lit (fst kv), snd kv))
             [("id", str "made-up-id"); ("term", str "Kubernetes");
              ("examples", str "none")]) = None ->
          getProp data (lit "practicalUsage") = placeholderUsage
          /\ getProp placeholderUsage (lit "title") = str "Contexto Geral")
    /\ (lookupProp (lit "fullTerm")
          (map (fun kv => (lit (fst kv), snd kv))
             [("id", str "made-up-id"); ("term", str "Kubernetes");
              ("examples", str "none")]) = None ->
          getProp data (lit "fullTerm") = getProp generatedPayload (lit "term")).
Proof.
  apply (generated_defaults generatingHost (lit "Kubernetes") tt tt tt
           [EvSelect (lit "kubernetes")] (lit "{...}") Plain).
  - reflexivity.
  - reflexivity.
  - reflexivity.
  - discriminate.
  - reflexivity.
Defined.

(** When the backend answers with no text, no tier has produced a record
    and the resolver throws its error. *)
Lemma no_text_not_found (h : Host) (termId : jsstring) (w w1 w2 : Remote h)
    (tr1 : list Event) (text : option jsstring) :
  storeTier h (normalizeId (toLowerCase h) termId) w = (w1, tr1, None) ->
  truthy (localDatabase_get (trim (toLowerCase h termId))) = false ->
  generateContent h w1 (prompt termId) = (w2, GenerateResolved text) ->
  isSet text = false ->
  getTermData h termId w
  = (w2, tr1 ++ [EvLocalRead (trim (toLowerCase h termId));
                 EvGenerate (prompt termId)],
     Rejected notFound).
Proof.
  intros S L G T. unfold getTermData. rewrite S, L.
  unfold generationTier. rewrite G.
  destruct text as [[|c t]|]; [reflexivity|discriminate|reflexivity].
Qed.

(** C2, as stated, fails: there is no error of its own for a failure of the
    generation tier.  A failed generation call, an unparsable answer and an
    answer without text (no tier produced a record) all end in the same
    error, "Termo não encontrado.". *)
Lemma generation_failure_is_not_found :
  outcomeOf (getTermData offlineHost (lit "Kafka") tt) = Rejected notFound
  /\ outcomeOf (getTermData garbledHost (lit "Kafka") tt) = Rejected notFound
  /\ outcomeOf (getTermData silentHost (lit "Kafka") tt) = Rejected notFound
  /\ outcomeOf (getTermData offlineHost (lit "Kafka") tt)
     = outcomeOf (getTermData silentHost (lit "Kafka") tt).
Proof. repeat split. Qed.

(** C2, amended: when resolution reaches the generation tier and the
    generation call fails or its text does not parse, the failure is written
    to the console and [getTermData] fails with its one error,
    "Termo não encontrado." (the error it also throws when no tier produced a
    record); nothing further is attempted: after the generation call there is
    no other call and no write to the store. *)
Theorem generation_failure_rejects (h : Host) (termId : jsstring)
    (w w1 w2 : Remote h) (tr1 : list Event) :
  storeTier h (normalizeId (toLowerCase h) termId) w = (w1, tr1, None) ->
  truthy (localDatabase_get (trim (toLowerCase h termId))) = false ->
  (generateContent h w1 (prompt termId) = (w2, GenerateRejected)
   \/ exists text,
        generateContent h w1 (prompt termId) = (w2, GenerateResolved (Some text))
        /\ text <> [] /\ JSON_parse h text = None) ->
  getTermData h termId w
  = (w2, tr1 ++ [EvLocalRead (trim (toLowerCase h termId));
                 EvGenerate (prompt termId);
                 EvConsole Error (lit "AI Generation failed:")],
     Rejected notFound).
Proof.
  intros S L [G|(text & G & T & P)];
    unfold getTermData; rewrite S, L; unfold generationTier; rewrite G.
  - reflexivity.
  - destruct text as [|c t]; [now destruct T|]. now rewrite P.
Qed.

Lemma generation_failure_rejects_witness :
  getTermData garbledHost (lit "Kafka") tt
  = (tt, [] ++ [EvLocalRead (trim (toLowerCase garbledHost (lit "Kafka")));
                EvGenerate (prompt (lit "Kafka"));
                EvConsole Error (lit "AI Generation failed:")],
     Rejected notFound).
Proof.
  apply (generation_failure_rejects garbledHost (lit "Kafka") tt tt tt []).
  - reflexivity.
  - reflexivity.
  - right. exists (lit "Sorry, I cannot help.").
    split; [reflexivity|]. split; [discriminate|reflexivity].
Defined.

(** ** Properties of the seeder *)

(** C7: with the store unconfigured, [seedDatabase] calls the callback
    exactly once, with the error message, and does nothing else: no term is
    resolved and the list is not walked, whatever the list. *)
Theorem seed_unconfigured (h : Host) (customList : option (list jsstring))
    (w : Remote h) :
  isSupabaseConfigured h = false ->
  seedDatabase h customList w = (w, [EvProgress notConfigured])
  /\ progress (snd (seedDatabase h customList w)) = [notConfigured]
  /\ resolved (snd (seedDatabase h customList w)) = [].
Proof.
  intros C. unfold seedDatabase. rewrite C. repeat split.
Qed.

Lemma seed_unconfigured_witness :
  seedDatabase offlineHost (Some [lit "X"]) tt = (tt, [EvProgress notConfigured])
  /\ progress (snd (seedDatabase offlineHost (Some [lit "X"]) tt)) = [notConfigured]
  /\ resolved (snd (seedDatabase offlineHost (Some [lit "X"]) tt)) = [].
Proof.
  apply (seed_unconfigured offlineHost (Some [lit "X"]) tt). reflexivity.
Defined.

Lemma seedLoop_app h pre post w :
  seedLoop h (pre ++ post) w
  = let '(w1, tr1) := seedLoop h pre w in
    let '(w2, tr2) := seedLoop h post w1 in
    (w2, tr1 ++ tr2).
Proof.
  revert w. induction pre as [|t pre IH]; intros w.
  - simpl. now destruct (seedLoop h post w).
  - cbn [app seedLoop]. destruct (isBlank t); [apply IH|].
    destruct (getTermData h t w) as [[w1 tr] out].
    rewrite IH. destruct (seedLoop h pre w1) as [w2 tr2].
    destruct (seedLoop h post w2) as [w3 tr3].
    cbn [app]. now rewrite <- app_assoc.
Qed.

(** The walk hands every item that is not blank to the resolver, in order,
    whatever the outcomes. *)
Lemma resolved_seedLoop h terms w :
  resolved (snd (seedLoop h terms w)) = nonBlank terms.
Proof.
  revert w. induction terms as [|t rest IH]; intros w; [reflexivity|].
  cbn [seedLoop nonBlank filter]. destruct (isBlank t); [apply IH|].
  destruct (getTermData h t w) as [[w1 tr] out] eqn:G.
  apply getTermData_trace in G as [R _].
  specialize (IH w1). destruct (seedLoop h rest w1) as [w2 tr2].
  cbn [snd negb] in *. unfold resolved in *. cbn [flat_map app].
  rewrite flat_map_app, R. cbn [flat_map app]. now rewrite IH.
Qed.

Lemma resolved_seedDatabase h customList w :
  isSupabaseConfigured h = true ->
  resolved (snd (seedDatabase h customList w))
  = nonBlank (listToProcess customList).
Proof.
  intros C. unfold seedDatabase. rewrite C. cbn [negb].
  pose proof (resolved_seedLoop h (listToProcess customList) w) as R.
  destruct (seedLoop h (listToProcess customList) w) as [w1 tr].
  cbn [snd] in *. unfold resolved in *. cbn [flat_map app].
  rewrite flat_map_app, R. cbn [flat_map]. now rewrite app_nil_r.
Qed.

(** C8, as stated, fails: an item that is blank is skipped, also after a
    failure.  In the list "A", "B", " " the second item fails and the third
    is never handed to the resolver. *)
Lemma blank_item_is_not_attempted :
  In (EvProgress (failed (lit "B")))
     (snd (seedDatabase flakyHost (Some [lit "A"; lit "B"; lit " "]) tt))
  /\ resolved (snd (seedDatabase flakyHost (Some [lit "A"; lit "B"; lit " "]) tt))
     = [lit "A"; lit "B"]
  /\ ~ In (lit " ")
       (resolved (snd (seedDatabase flakyHost (Some [lit "A"; lit "B"; lit " "]) tt))).
Proof.
  split; [|split].
  - vm_compute. do 16 right. left. reflexivity.
  - vm_compute. reflexivity.
  - vm_compute. intros [H|[H|[]]]; discriminate.
Qed.

(** Blank items leave no trace: walking a list is walking its items that
    are not blank. *)
Lemma seedLoop_nonBlank h terms w :
  seedLoop h (nonBlank terms) w = seedLoop h terms w.
Proof.
  revert w. induction terms as [|t rest IH]; intros w; [reflexivity|].
  cbn [nonBlank filter seedLoop]. destruct (isBlank t) eqn:B; cbn [negb].
  - apply IH.
  - cbn [seedLoop]. rewrite B. destruct (getTermData h t w) as [[w1 tr] out].
    fold (nonBlank rest). now rewrite IH.
Qed.

(** The callback hears of the attempted items only: for each of them the
    announcement and the report of how it settled. *)
Lemma progress_seedLoop h terms w :
  exists outs,
    List.length outs = List.length (nonBlank terms)
    /\ progress (snd (seedLoop h terms w))
       = itemReports (combine (nonBlank terms) outs).
Proof.
  revert w. induction terms as [|t rest IH]; intros w.
  - exists []. split; reflexivity.
  - cbn [seedLoop nonBlank filter]. destruct (isBlank t); [apply IH|].
    destruct (getTermData h t w) as [[w1 tr] out] eqn:G.
    apply getTermData_trace in G as [_ P].
    destruct (IH w1) as (outs & Len & Pr).
    destruct (seedLoop h rest w1) as [w2 tr2]. cbn [snd negb] in *.
    exists (out :: outs). split; [cbn [List.length]; now rewrite Len|].
    cbn [combine itemReports flat_map fst snd app].
    unfold progress in *. cbn [flat_map app].
    rewrite flat_map_app, P. cbn [flat_map app]. now rewrite Pr.
Qed.

(** C8, amended: a resolver failure on an item does not abort the walk.
    The failure is reported through the callback, every later item that is
    not blank is still handed to the resolver, in order, and completion is
    reported last.  A blank item, one whose trimmed text is empty, is
    skipped: it is not resolved and nothing is reported for it, so that
    what follows the failure is the walk over the later items that are not
    blank, and the callback hears of these items only, before and after
    the failure. *)
Theorem seeder_isolates_failures (h : Host)
    (customList : option (list jsstring)) (w w1 : Remote h)
    (pre post : list jsstring) (term m : jsstring) (tr : list Event) :
  isSupabaseConfigured h = true ->
  listToProcess customList = pre ++ term :: post ->
  isBlank term = false ->
  getTermData h term (fst (seedLoop h pre w)) = (w1, tr, Rejected m) ->
  exists before after outsBefore outsAfter,
    snd (seedDatabase h customList w)
    = before
      ++ EvProgress (processing term) :: EvResolve term :: tr
      ++ EvProgress (failed term) :: EvSleep 1500 :: after
      ++ [EvProgress finished]
    /\ resolved after = nonBlank post
    /\ resolved (snd (seedDatabase h customList w))
       = nonBlank pre ++ term :: nonBlank post
    /\ after = snd (seedLoop h (nonBlank post) w1)
    /\ List.length outsAfter = List.length (nonBlank post)
    /\ progress after = itemReports (combine (nonBlank post) outsAfter)
    /\ List.length outsBefore = List.length (nonBlank pre)
    /\ progress before
       = starting (List.length (listToProcess customList))
         :: lit "Atenção: Isso consome tokens da sua API Key."
         :: itemReports (combine (nonBlank pre) outsBefore)
    /\ progress (snd (seedDatabase h customList w))
       = progress before
         ++ processing term :: failed term :: progress after ++ [finished].
Proof.
  intros C L B G.
  pose proof (resolved_seedDatabase h customList w C) as RD.
  destruct (progress_seedLoop h pre w) as (outsBefore & LenB & PB).
  destruct (progress_seedLoop h post w1) as (outsAfter & LenA & PA).
  pose proof (seedLoop_nonBlank h post w1) as NB.
  pose proof (getTermData_trace h term _ w1 tr (Rejected m) G) as [_ PT].
  unfold seedDatabase in *. rewrite C in *. cbn [negb] in *.
  rewrite L in *. rewrite seedLoop_app in *.
  destruct (seedLoop h pre w) as [w0 tr0]. cbn [fst snd] in *.
  cbn [seedLoop] in *. rewrite B, G in *.
  pose proof (resolved_seedLoop h post w1) as RP.
  destruct (seedLoop h post w1) as [w2 tr2]. cbn [snd report] in *.
  exists (EvProgress (starting (List.length (pre ++ term :: post)))
          :: EvProgress (lit "Atenção: Isso consome tokens da sua API Key.")
          :: tr0), tr2, outsBefore, outsAfter.
  split; [|split; [|split; [|split; [|split; [|split; [|split; [|split]]]]]]].
  - cbn [app]. do 2 f_equal. rewrite <- !app_assoc. cbn [app].
    do 3 f_equal. rewrite <- app_assoc. reflexivity.
  - exact RP.
  - rewrite RD. unfold nonBlank. rewrite filter_app. cbn [filter].
    now rewrite B.
  - now rewrite NB.
  - exact LenA.
  - exact PA.
  - exact LenB.
  - unfold progress in *. cbn [flat_map app]. now rewrite PB.
  - unfold progress in *. cbn [flat_map app].
    rewrite !flat_map_app. cbn [flat_map app].
    rewrite !flat_map_app, PT. cbn [flat_map app].
    rewrite <- !app_assoc. reflexivity.
Qed.

Lemma seeder_isolates_failures_witness :
  exists before after outsBefore outsAfter,
    snd (seedDatabase flakyHost (Some [lit "A"; lit "B"; lit " "; lit "C"]) tt)
    = before
      ++ EvProgress (processing (lit "B")) :: EvResolve (lit "B")
         :: [EvSelect (lit "b"); EvLocalRead (lit "b");
             EvGenerate (prompt (lit "B"));
             EvConsole Error (lit "AI Generation failed:")]
      ++ EvProgress (failed (lit "B")) :: EvSleep 1500 :: after
      ++ [EvProgress finished]
    /\ resolved after = nonBlank [lit " "; lit "C"]
    /\ resolved (snd (seedDatabase flakyHost
                        (Some [lit "A"; lit "B"; lit " "; lit "C"]) tt))
       = nonBlank [lit "A"] ++ lit "B" :: nonBlank [lit " "; lit "C"]
    /\ after = snd (seedLoop flakyHost (nonBlank [lit " "; lit "C"]) tt)
    /\ List.length outsAfter = List.length (nonBlank [lit " "; lit "C"])
    /\ progress after
       = itemReports (combine (nonBlank [lit " "; lit "C"]) outsAfter)
    /\ List.length outsBefore = List.length (nonBlank [lit "A"])
    /\ progress before
       = starting (List.length
                     (listToProcess (Some [lit "A"; lit "B"; lit " "; lit "C"])))
         :: lit "Atenção: Isso consome tokens da sua API Key."
         :: itemReports (combine (nonBlank [lit "A"]) outsBefore)
    /\ progress (snd (seedDatabase flakyHost
                        (Some [lit "A"; lit "B"; lit " "; lit "C"]) tt))
       = progress before
         ++ processing (lit "B") :: failed (lit "B")
            :: progress after ++ [finished].
Proof.
  apply (seeder_isolates_failures flakyHost
           (Some [lit "A"; lit "B"; lit " "; lit "C"])
           tt tt [lit "A"] [lit " "; lit "C"] (lit "B") notFound).
  - reflexivity.
  - reflexivity.
  - reflexivity.
  - vm_compute. reflexivity.
Defined.

(** C10: with the store configured, an empty custom list is not walked as
    a list of no items: the seeder falls back to the built-in list of 20
    terms and resolves each of them, exactly as when no list is given. *)
Theorem seed_empty_list_uses_default (h : Host) (w : Remote h) :
  isSupabaseConfigured h = true ->
  seedDatabase h (Some []) w = seedDatabase h None w
  /\ listToProcess (Some []) = defaultList
  /\ List.length defaultList = 20%nat
  /\ resolved (snd (seedDatabase h (Some []) w)) = defaultList
  /\ hd_error (progress (snd (seedDatabase h (Some []) w)))
     = Some (lit "Iniciando carga de 20 termos...").
Proof.
  intros C. split; [reflexivity|]. split; [reflexivity|].
  split; [reflexivity|]. split.
  - rewrite (resolved_seedDatabase h (Some []) w C). reflexivity.
  - unfold seedDatabase. rewrite C. cbn [negb].
    destruct (seedLoop h (listToProcess (Some [])) w). reflexivity.
Qed.

Lemma seed_empty_list_uses_default_witness :
  seedDatabase generatingHost (Some []) tt = seedDatabase generatingHost None tt
  /\ listToProcess (Some []) = defaultList
  /\ List.length defaultList = 20%nat
  /\ resolved (snd (seedDatabase generatingHost (Some []) tt)) = defaultList
  /\ hd_error (progress (snd (seedDatabase generatingHost (Some []) tt)))
     = Some (lit "Iniciando carga de 20 termos...").
Proof.
  apply (seed_empty_list_uses_default generatingHost tt). reflexivity.
Defined.

(** * Further properties *)

(** ** The identifier normalizer *)

Lemma normalizeId_fixed (lower : jsstring -> jsstring) (s : jsstring) :
  LowersAscii lower -> looseSlug s = true -> normalizeId lower s = s.
Proof.
  intros L H. unfold looseSlug in H. apply andb_true_iff in H as [Hc Hs].
  unfold normalizeId.
  rewrite (L _ (slugChars_ascii _ Hc)), (lower_fixed _ Hc).
  rewrite (trim_fixed _ Hc), (replaceNonAlnum_fixed _ Hc).
  now apply replaceHyphenRuns_fixed.
Qed.

(** The identifiers [normalizeId] can produce are exactly the strings of
    lowercase alphanumerics and single hyphens, and each of them is its own
    identifier. *)
Theorem normalizeId_image (lower : jsstring -> jsstring) (s : jsstring) :
  LowersAscii lower ->
  (looseSlug s = true <-> exists x, normalizeId lower x = s)
  /\ (looseSlug s = true -> normalizeId lower s = s).
Proof.
  intros L. split; [split|].
  - intros H. exists s. now apply normalizeId_fixed.
  - intros [x <-]. unfold looseSlug.
    now rewrite normalizeId_chars, normalizeId_single.
  - now apply normalizeId_fixed.
Qed.

Lemma normalizeId_image_witness :
  (looseSlug (lit "-node-js") = true
   <-> exists x, normalizeId asciiToLowerCase x = lit "-node-js")
  /\ (looseSlug (lit "-node-js") = true
      -> normalizeId asciiToLowerCase (lit "-node-js") = lit "-node-js").
Proof.
  apply (normalizeId_image asciiToLowerCase (lit "-node-js")).
  intros s _. reflexivity.
Defined.

Lemma replaceHyphenRuns_nil (s : jsstring) :
  replaceHyphenRuns false s = [] -> s = [].
Proof.
  destruct s as [|c r]; [reflexivity|]. simpl.
  destruct (isHyphen c); discriminate.
Qed.

Lemma normalizeId_nil (lower : jsstring -> jsstring) (s : jsstring) :
  normalizeId lower s = [] -> trim (lower s) = [].
Proof.
  unfold normalizeId. intros H. apply replaceHyphenRuns_nil in H.
  unfold replaceNonAlnum in H. now apply map_eq_nil in H.
Qed.

(** The identifier is empty exactly for a blank input, one whose
    lower-cased text trims to nothing; every other input gets a non-empty
    identifier. *)
Theorem normalizeId_empty_iff_blank (lower : jsstring -> jsstring)
    (s : jsstring) :
  normalizeId lower s = [] <-> trim (lower s) = [].
Proof.
  split; [apply normalizeId_nil|].
  unfold normalizeId. intros ->. reflexivity.
Qed.

Lemma replaceHyphenRuns_alnum (b : bool) (s : jsstring) :
  filter isLowerAlnum (replaceHyphenRuns b s) = filter isLowerAlnum s.
Proof.
  revert b. induction s as [|c r IH]; intros b; [reflexivity|]. simpl.
  destruct (isHyphen c) eqn:E.
  - assert (A : isLowerAlnum c = false).
    { destruct (isLowerAlnum c) eqn:A; [|reflexivity].
      apply alnum_not_hyphen in A. congruence. }
    rewrite A. destruct b; simpl; [apply IH|].
    change (isLowerAlnum hyphen) with false. apply IH.
  - simpl. now rewrite IH.
Qed.

Lemma replaceNonAlnum_alnum (s : jsstring) :
  filter isLowerAlnum (replaceNonAlnum s) = filter isLowerAlnum s.
Proof.
  induction s as [|c r IH]; [reflexivity|]. simpl.
  destruct (isLowerAlnum c) eqn:E.
  - rewrite E. now rewrite IH.
  - change (isLowerAlnum hyphen) with false. exact IH.
Qed.

(** Normalizing neither drops nor reorders nor adds a letter or digit: the
    alphanumerics of the identifier are those of the lower-cased, trimmed
    input, in order. *)
Theorem normalizeId_keeps_alnum (lower : jsstring -> jsstring) (s : jsstring) :
  filter isLowerAlnum (normalizeId lower s)
  = filter isLowerAlnum (trim (lower s)).
Proof.
  unfold normalizeId. now rewrite replaceHyphenRuns_alnum, replaceNonAlnum_alnum.
Qed.

Lemma replaceHyphenRuns_length (b : bool) (s : jsstring) :
  (List.length (replaceHyphenRuns b s) <= List.length s)%nat.
Proof.
  revert b. induction s as [|c r IH]; intros b; simpl; [lia|].
  destruct (isHyphen c); [destruct b|]; simpl.
  - specialize (IH true). lia.
  - specialize (IH true). lia.
  - specialize (IH false). lia.
Qed.

Lemma trimStart_length (s : jsstring) :
  (List.length (trimStart s) <= List.length s)%nat.
Proof.
  induction s as [|c r IH]; simpl; [lia|].
  destruct (isWhiteSpace c); simpl; lia.
Qed.

Lemma trim_length (s : jsstring) :
  (List.length (trim s) <= List.length s)%nat.
Proof.
  unfold trim, trimEnd. rewrite length_rev.
  pose proof (trimStart_length (rev (trimStart s))) as H1.
  pose proof (trimStart_length s) as H2. rewrite length_rev in H1. lia.
Qed.

(** An identifier is never longer than the lower-cased input it is made
    from. *)
Theorem normalizeId_length (lower : jsstring -> jsstring) (s : jsstring) :
  (List.length (normalizeId lower s) <= List.length (lower s))%nat.
Proof.
  unfold normalizeId.
  pose proof (replaceHyphenRuns_length false
                (replaceNonAlnum (trim (lower s)))) as H1.
  unfold replaceNonAlnum in H1 at 2. rewrite length_map in H1.
  pose proof (trim_length (lower s)). lia.
Qed.

(** *** Case and padding *)

Lemma trimStart_app_space (p x : jsstring) :
  forallb isWhiteSpace p = true -> trimStart (p ++ x) = trimStart x.
Proof.
  induction p as [|c r IH]; simpl; intros H; [reflexivity|].
  apply andb_true_iff in H as [Hc Hr]. rewrite Hc. now apply IH.
Qed.

Lemma trimStart_space (p : jsstring) :
  forallb isWhiteSpace p = true -> trimStart p = [].
Proof.
  intros H. rewrite <- (app_nil_r p). now rewrite trimStart_app_space.
Qed.

Lemma trimEnd_app_space (x p : jsstring) :
  forallb isWhiteSpace p = true -> trimEnd (x ++ p) = trimEnd x.
Proof.
  intros H. unfold trimEnd. rewrite rev_app_distr.
  now rewrite (trimStart_app_space _ _ (forallb_rev _ _ H)).
Qed.

Lemma trimStart_app (a b : jsstring) :
  trimStart (a ++ b)
  = match trimStart a with [] => trimStart b | _ => trimStart a ++ b end.
Proof.
  induction a as [|c r IH]; simpl; [now destruct (trimStart b)|].
  destruct (isWhiteSpace c); [exact IH|reflexivity].
Qed.

Lemma trim_padding (p1 s p2 : jsstring) :
  forallb isWhiteSpace p1 = true -> forallb isWhiteSpace p2 = true ->
  trim (p1 ++ s ++ p2) = trim s.
Proof.
  intros H1 H2. unfold trim. rewrite (trimStart_app_space _ _ H1).
  rewrite trimStart_app. destruct (trimStart s) as [|c r] eqn:E.
  - now rewrite (trimStart_space _ H2).
  - now rewrite (trimEnd_app_space _ _ H2).
Qed.

Lemma lowerAscii_space (c : N) : isWhiteSpace (lowerAscii c) = isWhiteSpace c.
Proof.
  unfold lowerAscii. destruct ((65 <=? c) && (c <=? 90)) eqn:E; [|reflexivity].
  apply andb_true_iff in E as [E1 E2]. apply N.leb_le in E1, E2.
  assert (W : forall d, 65 <= d <= 122 -> isWhiteSpace d = false).
  { intros d Hd. apply not_true_is_false. intros W. unfold isWhiteSpace in W.
    rewrite !orb_true_iff, !andb_true_iff, !N.leb_le, !N.eqb_eq in W. lia. }
  rewrite (W c), (W (c + 32)); [reflexivity|lia|lia].
Qed.

Lemma lower_space (p : jsstring) :
  forallb isWhiteSpace p = true ->
  forallb isWhiteSpace (map lowerAscii p) = true.
Proof.
  induction p as [|c r IH]; simpl; intros H; [reflexivity|].
  apply andb_true_iff in H as [Hc Hr].
  now rewrite lowerAscii_space, Hc, (IH Hr).
Qed.

(** Two ASCII inputs that differ only in letter case and in white space
    around them get the same store key and the same seed key. *)
Theorem keys_ignore_case_and_padding (lower : jsstring -> jsstring)
    (p1 s p2 t : jsstring) :
  LowersAscii lower ->
  forallb isAscii (p1 ++ s ++ p2) = true ->
  forallb isAscii t = true ->
  forallb isWhiteSpace p1 = true ->
  forallb isWhiteSpace p2 = true ->
  map lowerAscii s = map lowerAscii t ->
  normalizeId lower (p1 ++ s ++ p2) = normalizeId lower t
  /\ trim (lower (p1 ++ s ++ p2)) = trim (lower t).
Proof.
  intros L A At W1 W2 E.
  assert (K : trim (lower (p1 ++ s ++ p2)) = trim (lower t)).
  { rewrite (L _ A), (L _ At), !map_app, E.
    apply trim_padding; now apply lower_space. }
  split; [|exact K]. unfold normalizeId. now rewrite K.
Qed.

Lemma keys_ignore_case_and_padding_witness :
  normalizeId asciiToLowerCase (lit "  " ++ lit "React JS" ++ lit " ")
  = normalizeId asciiToLowerCase (lit "react js")
  /\ trim (asciiToLowerCase (lit "  " ++ lit "React JS" ++ lit " "))
     = trim (asciiToLowerCase (lit "react js")).
Proof.
  apply (keys_ignore_case_and_padding asciiToLowerCase
           (lit "  ") (lit "React JS") (lit " ") (lit "react js")).
  - intros s _. reflexivity.
  - reflexivity.
  - reflexivity.
  - reflexivity.
  - reflexivity.
  - reflexivity.
Defined.

(** ** The resolver *)

Lemma storeTier_selects h dbId w :
  selects (snd (fst (storeTier h dbId w)))
  = (if isSupabaseConfigured h then [dbId] else []).
Proof.
  unfold storeTier. destruct (isSupabaseConfigured h); [|reflexivity].
  destruct (supabase_select h w dbId) as [w0 [|data err]]; [reflexivity|].
  destruct (truthy data && truthy (getProp data (lit "content"))); reflexivity.
Qed.

Lemma writeBack_inserts h dbId data w :
  inserts (snd (writeBack h dbId data w))
  = (if isSupabaseConfigured h then [termRow dbId data] else [])
  /\ selects (snd (writeBack h dbId data w)) = []
  /\ generationCalls (snd (writeBack h dbId data w)) = []
  /\ sleeps (snd (writeBack h dbId data w)) = [].
Proof. unfold writeBack. destruct (isSupabaseConfigured h); repeat split. Qed.

(** What the generation tier does: one request, no lookup, and an insert
    exactly when it fulfils on a configured store. *)
Lemma generationTier_calls h termId dbId w :
  generationCalls (traceOf (generationTier h termId dbId w)) = [prompt termId]
  /\ selects (traceOf (generationTier h termId dbId w)) = []
  /\ localReads (traceOf (generationTier h termId dbId w)) = []
  /\ sleeps (traceOf (generationTier h termId dbId w)) = []
  /\ inserts (traceOf (generationTier h termId dbId w))
     = match outcomeOf (generationTier h termId dbId w) with
       | Fulfilled data =>
         if isSupabaseConfigured h then [termRow dbId data] else []
       | Rejected _ => []
       end.
Proof.
  unfold generationTier, traceOf, outcomeOf.
  destruct (generateContent h w (prompt termId)) as [w1 [|[[|c t]|]]];
    try (repeat split; reflexivity).
  destruct (d <- JSON_parse h (c :: t);; applyDefaults dbId d) as [data|];
    [|repeat split; reflexivity].
  pose proof (writeBack_inserts h dbId data w1) as (I & S & G & Z).
  pose proof (writeBack_trace h dbId data w1) as T.
  destruct (writeBack h dbId data w1) as [w2 tr2].
  specialize (T w2 tr2 eq_refl) as (L & _).
  cbn [snd fst] in *. unfold generationCalls, selects, localReads, sleeps, inserts in *.
  cbn [flat_map app]. now rewrite I, S, G, L, Z.
Qed.

Lemma storeTier_others h dbId w :
  generationCalls (snd (fst (storeTier h dbId w))) = []
  /\ localReads (snd (fst (storeTier h dbId w))) = []
  /\ inserts (snd (fst (storeTier h dbId w))) = []
  /\ sleeps (snd (fst (storeTier h dbId w))) = [].
Proof.
  unfold storeTier. destruct (isSupabaseConfigured h); [|repeat split].
  destruct (supabase_select h w dbId) as [w0 [|data err]]; [repeat split|].
  destruct (truthy data && truthy (getProp data (lit "content"))); repeat split.
Qed.

(** The only error a caller of [getTermData] can see is the one thrown at
    its end: a failure of the store or of the generation backend never
    surfaces as an error of its own. *)
Theorem getTermData_only_error (h : Host) (termId : jsstring) (w : Remote h) :
  match outcomeOf (getTermData h termId w) with
  | Fulfilled _ => True
  | Rejected message => message = notFound
  end.
Proof.
  unfold getTermData, outcomeOf.
  destruct (storeTier h _ w) as [[w1 tr1] [content|]]; [exact I|].
  destruct (truthy (localDatabase_get _)); [exact I|].
  unfold generationTier.
  destruct (generateContent h w1 (prompt termId)) as [w2 [|[[|c t]|]]];
    try reflexivity.
  destruct (d <- JSON_parse h (c :: t);; applyDefaults _ d) as [data|];
    [|reflexivity].
  destruct (writeBack h _ data w2). exact I.
Qed.

Lemma getTermData_call_counts h termId w :
  selects (traceOf (getTermData h termId w))
  = (if isSupabaseConfigured h
     then [normalizeId (toLowerCase h) termId] else [])
  /\ (List.length (localReads (traceOf (getTermData h termId w))) <= 1)%nat
  /\ (List.length (generationCalls (traceOf (getTermData h termId w))) <= 1)%nat
  /\ (List.length (inserts (traceOf (getTermData h termId w))) <= 1)%nat.
Proof.
  unfold getTermData, traceOf.
  pose proof (storeTier_selects h (normalizeId (toLowerCase h) termId) w) as S.
  pose proof (storeTier_others h (normalizeId (toLowerCase h) termId) w)
    as (G & L & I & _).
  destruct (storeTier h _ w) as [[w1 tr1] r]. cbn [fst snd] in *.
  destruct r as [content|]; cbn [fst snd].
  - rewrite S, G, L, I. simpl. repeat split; lia.
  - destruct (truthy (localDatabase_get _)); cbn [fst snd].
    + unfold selects, localReads, generationCalls, inserts in *.
      rewrite !flat_map_app, S, G, L, I. simpl. rewrite app_nil_r.
      repeat split; lia.
    + pose proof (generationTier_calls h termId
                    (normalizeId (toLowerCase h) termId) w1)
        as (G2 & S2 & L2 & _ & I2).
      unfold traceOf, outcomeOf in *.
      destruct (generationTier h termId _ w1) as [[w2 tr2] out].
      cbn [fst snd] in *.
      unfold selects, localReads, generationCalls, inserts in *.
      rewrite !flat_map_app. cbn [flat_map app].
      rewrite S, G, L, I, G2, S2, L2, I2, app_nil_r. simpl.
      split; [reflexivity|].
      destruct out; [destruct (isSupabaseConfigured h)|]; simpl;
        repeat split; lia.
Qed.

(** One resolution looks the store up at most once, reads the seed set at
    most once, calls the generation backend at most once and inserts at
    most one row: nothing is retried. *)
Theorem getTermData_no_retry (h : Host) (termId : jsstring) (w : Remote h) :
  (List.length (selects (traceOf (getTermData h termId w))) <= 1)%nat
  /\ (List.length (localReads (traceOf (getTermData h termId w))) <= 1)%nat
  /\ (List.length (generationCalls (traceOf (getTermData h termId w))) <= 1)%nat
  /\ (List.length (inserts (traceOf (getTermData h termId w))) <= 1)%nat.
Proof.
  destruct (getTermData_call_counts h termId w) as (S & L & G & I).
  split; [|repeat split; assumption].
  rewrite S. destruct (isSupabaseConfigured h); simpl; lia.
Qed.

(** When either secret is missing or empty the resolver makes no access to
    the store at all, neither a lookup nor an insert, and the seeder only
    reports the error. *)
Theorem unconfigured_never_touches_store (h : Host) (termId : jsstring)
    (customList : option (list jsstring)) (w : Remote h) :
  isSet (SUPABASE_URL h) = false \/ isSet (SUPABASE_ANON_KEY h) = false ->
  selects (traceOf (getTermData h termId w)) = []
  /\ inserts (traceOf (getTermData h termId w)) = []
  /\ seedDatabase h customList w = (w, [EvProgress notConfigured]).
Proof.
  intros U.
  assert (C : isSupabaseConfigured h = false).
  { unfold isSupabaseConfigured. destruct U as [-> | ->];
      [reflexivity|apply andb_false_r]. }
  split; [|split].
  - unfold getTermData, traceOf. rewrite (storeTier_unconfigured h _ w C).
    destruct (truthy (localDatabase_get _)); [reflexivity|].
    pose proof (generationTier_calls h termId
                  (normalizeId (toLowerCase h) termId) w) as (_ & S & _).
    unfold traceOf in S. destruct (generationTier h termId _ w) as [[w2 tr2] out].
    cbn [fst snd app] in *. exact S.
  - unfold getTermData, traceOf. rewrite (storeTier_unconfigured h _ w C).
    destruct (truthy (localDatabase_get _)); [reflexivity|].
    pose proof (generationTier_calls h termId
                  (normalizeId (toLowerCase h) termId) w) as (_ & _ & _ & _ & I).
    unfold traceOf, outcomeOf in I.
    destruct (generationTier h termId _ w) as [[w2 tr2] out].
    cbn [fst snd app] in *. unfold inserts in *. cbn [flat_map app].
    rewrite I, C. now destruct out.
  - unfold seedDatabase. now rewrite C.
Qed.

Lemma unconfigured_never_touches_store_witness :
  selects (traceOf (getTermData
     (scriptedHost (Some []) someKey (fun _ => noRow)
        (fun _ => GenerateResolved (Some (lit "{...}")))
        (fun _ => Some generatedPayload)) (lit "Kafka") tt)) = []
  /\ inserts (traceOf (getTermData
     (scriptedHost (Some []) someKey (fun _ => noRow)
        (fun _ => GenerateResolved (Some (lit "{...}")))
        (fun _ => Some generatedPayload)) (lit "Kafka") tt)) = []
  /\ seedDatabase
       (scriptedHost (Some []) someKey (fun _ => noRow)
          (fun _ => GenerateResolved (Some (lit "{...}")))
          (fun _ => Some generatedPayload)) (Some [lit "Kafka"]) tt
     = (tt, [EvProgress notConfigured]).
Proof.
  apply (unconfigured_never_touches_store
           (scriptedHost (Some []) someKey (fun _ => noRow)
              (fun _ => GenerateResolved (Some (lit "{...}")))
              (fun _ => Some generatedPayload))
           (lit "Kafka") (Some [lit "Kafka"]) tt).
  left. reflexivity.
Defined.

(** A store that is configured but whose lookup fails, or answers without
    a record, is only a miss: the failure is logged as a warning and the
    resolver goes on to the seed set, looking the store up once and
    leaving the backend alone when the seed set has the term. *)
Theorem store_failure_falls_through (h : Host) (termId : jsstring)
    (w w' : Remote h) (record : value) :
  isSupabaseConfigured h = true ->
  (terms_select_single h w (normalizeId (toLowerCase h) termId)
     = (w', SelectRejected)
   \/ exists data err,
        terms_select_single h w (normalizeId (toLowerCase h) termId)
          = (w', SelectResolved data err)
        /\ truthy data && truthy (getProp data (lit "content")) = false) ->
  lookupProp (trim (toLowerCase h termId)) localDatabase = Some record ->
  exists tr,
    getTermData h termId w = (w', tr, Fulfilled record)
    /\ selects tr = [normalizeId (toLowerCase h) termId]
    /\ localReads tr = [trim (toLowerCase h termId)]
    /\ generationCalls tr = [] /\ inserts tr = [].
Proof.
  intros C S L. destruct (localDatabase_records _ _ L) as [G T].
  unfold getTermData, storeTier, supabase_select. rewrite C.
  destruct S as [S|(data & err & S & F)]; rewrite S.
  - rewrite G, T. eexists. split; [reflexivity|]. repeat split.
  - rewrite F, G, T. eexists. split; [reflexivity|]. repeat split.
Qed.

Lemma store_failure_falls_through_witness :
  exists tr,
    getTermData brokenStoreHost (lit "Api ") tt = (tt, tr, Fulfilled apiRecord)
    /\ selects tr = [normalizeId (toLowerCase brokenStoreHost) (lit "Api ")]
    /\ localReads tr = [trim (toLowerCase brokenStoreHost (lit "Api "))]
    /\ generationCalls tr = [] /\ inserts tr = [].
Proof.
  apply (store_failure_falls_through brokenStoreHost (lit "Api ") tt tt apiRecord).
  - reflexivity.
  - left. reflexivity.
  - reflexivity.
Defined.

(** A fulfilled run that called the backend is the post-processing of the
    parsed answer, followed by the write-back. *)
Lemma getTermData_generated h termId w w' tr data :
  getTermData h termId w = (w', tr, Fulfilled data) ->
  generationCalls tr <> [] ->
  exists text parsed,
    JSON_parse h text = Some parsed
    /\ applyDefaults (normalizeId (toLowerCase h) termId) parsed = Some data
    /\ inserts tr
       = (if isSupabaseConfigured h
          then [termRow (normalizeId (toLowerCase h) termId) data] else []).
Proof.
  unfold getTermData.
  pose proof (storeTier_others h (normalizeId (toLowerCase h) termId) w)
    as (G1 & _ & I1 & _).
  destruct (storeTier h _ w) as [[w1 tr1] r]. cbn [fst snd] in *.
  destruct r as [content|].
  - intros H; injection H as _ <- _. now intros [].
  - destruct (truthy (localDatabase_get _)).
    + intros H; injection H as _ <- _.
      unfold generationCalls in *. rewrite flat_map_app, G1. now intros [].
    + pose proof (generationTier_calls h termId
                    (normalizeId (toLowerCase h) termId) w1)
        as (_ & _ & _ & _ & I2).
      unfold traceOf, outcomeOf in I2.
      destruct (generationTier h termId _ w1) as [[w2 tr2] o] eqn:G.
      cbn [fst snd] in *.
      intros H; injection H as _ <- ->. intros _.
      apply generationTier_fulfilled in G as (text & parsed & P & A).
      exists text, parsed. split; [exact P|]. split; [exact A|].
      unfold inserts in *. rewrite flat_map_app. cbn [flat_map app].
      now rewrite I1, I2.
Qed.

(** After a successful generation the resolver hands the store exactly one
    row when the store is configured and none otherwise; the row is keyed
    by the normalized id, its content is the very record returned to the
    caller, and its term, category and definition are copied from it. *)
Theorem write_back_row (h : Host) (termId : jsstring) (w w' : Remote h)
    (tr : list Event) (data : value) :
  getTermData h termId w = (w', tr, Fulfilled data) ->
  generationCalls tr <> [] ->
  let row := termRow (normalizeId (toLowerCase h) termId) data in
  inserts tr = (if isSupabaseConfigured h then [row] else [])
  /\ getProp row (lit "id") = VStr (normalizeId (toLowerCase h) termId)
  /\ getProp row (lit "content") = data
  /\ getProp row (lit "term") = getProp data (lit "term")
  /\ getProp row (lit "category") = getProp data (lit "category")
  /\ getProp row (lit "definition") = getProp data (lit "definition").
Proof.
  intros H G. apply (getTermData_generated h termId w w' tr data H) in G
    as (_ & _ & _ & _ & I).
  split; [exact I|]. repeat split.
Qed.

Lemma write_back_row_witness :
  exists tr data,
    getTermData generatingHost (lit "Node.js") tt = (tt, tr, Fulfilled data)
    /\ inserts tr = [termRow (lit "node-js") data]
    /\ getProp (termRow (lit "node-js") data) (lit "content") = data.
Proof.
  destruct (getTermData generatingHost (lit "Node.js") tt)
    as [[w' tr] out] eqn:E.
  destruct out as [data|m]; [|now vm_compute in E].
  assert (G : generationCalls tr <> []).
  { vm_compute in E. injection E as _ <- _. discriminate. }
  destruct (write_back_row generatingHost (lit "Node.js") tt w' tr data E G)
    as (I & _ & C & _).
  destruct w'. exists tr, data. repeat split; assumption.
Defined.

(** Only an object survives the assignments of the post-processing. *)
Lemma applyDefaults_result_object dbId parsed data :
  applyDefaults dbId parsed = Some data ->
  isObject parsed = true /\ exists c props, data = VObject c props.
Proof.
  unfold applyDefaults. destruct parsed as [| | | | |c props]; try discriminate.
  cbn [setProp bind]. intros H. split; [reflexivity|]. exists c.
  match type of H with (if ?b then _ else _) = _ => destruct b end;
    injection H as <-; eexists; reflexivity.
Qed.

(** Read-through round trip: once the store serves back the row that a
    successful generation wrote, resolving any raw text with the same
    normalized id returns the generated record unchanged, from the store,
    without another call to the backend. *)
Theorem generated_record_round_trip (h : Host) (termId termId' : jsstring)
    (w w' w2 w3 : Remote h) (tr : list Event) (data err : value) :
  getTermData h termId w = (w', tr, Fulfilled data) ->
  generationCalls tr <> [] ->
  isSupabaseConfigured h = true ->
  normalizeId (toLowerCase h) termId' = normalizeId (toLowerCase h) termId ->
  (forall row, inserts tr = [row] ->
     terms_select_single h w2 (normalizeId (toLowerCase h) termId)
     = (w3, SelectResolved row err)) ->
  getTermData h termId' w2
  = (w3, [EvSelect (normalizeId (toLowerCase h) termId);
          EvConsole Log (lit "Hit from Supabase:")],
     Fulfilled data).
Proof.
  intros H G C K S.
  apply (getTermData_generated h termId w w' tr data H) in G
    as (text & parsed & _ & A & I).
  rewrite C in I. specialize (S _ I).
  destruct (applyDefaults_result_object _ parsed data A) as (_ & c & props & ->).
  unfold getTermData, storeTier, supabase_select. rewrite C, K, S.
  reflexivity.
Qed.

Lemma generated_record_round_trip_witness :
  exists table tr data,
    getTermData memoryStoreHost (lit "React JS") [] = (table, tr, Fulfilled data)
    /\ getTermData memoryStoreHost (lit " react js ") table
       = (table, [EvSelect (normalizeId asciiToLowerCase (lit "React JS"));
                  EvConsole Log (lit "Hit from Supabase:")],
          Fulfilled data).
Proof.
  destruct (getTermData memoryStoreHost (lit "React JS") [])
    as [[table tr] out] eqn:E.
  destruct out as [data|m]; [|now vm_compute in E].
  exists table, tr, data. split; [reflexivity|].
  apply (generated_record_round_trip memoryStoreHost (lit "React JS")
           (lit " react js ") [] table table table tr data VNull E).
  - vm_compute in E. injection E as _ <- _. discriminate.
  - reflexivity.
  - reflexivity.
  - intros row R. vm_compute in E. injection E as <- <- _.
    vm_compute in R. injection R as <-. reflexivity.
Defined.

(** The shape of every generated record: it is an object whose [examples],
    [analogies] and [relatedTerms] are arrays and whose [practicalUsage] is
    never missing or empty, whatever the backend sent. *)
Theorem generated_record_shape (h : Host) (termId : jsstring)
    (w w' : Remote h) (tr : list Event) (data : value) :
  getTermData h termId w = (w', tr, Fulfilled data) ->
  generationCalls tr <> [] ->
  isObject data = true
  /\ isArray (getProp data (lit "examples")) = true
  /\ isArray (getProp data (lit "analogies")) = true
  /\ isArray (getProp data (lit "relatedTerms")) = true
  /\ truthy (getProp data (lit "practicalUsage")) = true.
Proof.
  intros H G. apply (getTermData_generated h termId w w' tr data H) in G
    as (_ & parsed & _ & A & _).
  revert A. unfold applyDefaults.
  destruct parsed as [| | | | |c props]; try discriminate.
  cbn [setProp bind]. intros A.
  assert (Arr : forall d k, isArray (arrayOrEmpty d k) = true).
  { intros d k. unfold arrayOrEmpty.
    destruct (isArray (getProp d k)) eqn:E; [exact E|reflexivity]. }
  match type of A with (if negb ?b then _ else _) = _ => destruct b eqn:P end;
    cbn [negb] in A; injection A as <-.
  - clear H. split; [reflexivity|]. do 3 (split; [props; apply Arr|]). exact P.
  - clear H. split; [reflexivity|]. do 3 (split; [props; apply Arr|]).
    now props.
Qed.

Lemma generated_record_shape_witness :
  exists tr data,
    getTermData generatingHost (lit "Kubernetes") tt = (tt, tr, Fulfilled data)
    /\ getProp generatedPayload (lit "examples") = str "none"
    /\ isArray (getProp data (lit "examples")) = true
    /\ isArray (getProp data (lit "analogies")) = true
    /\ isArray (getProp data (lit "relatedTerms")) = true
    /\ truthy (getProp data (lit "practicalUsage")) = true.
Proof.
  destruct (getTermData generatingHost (lit "Kubernetes") tt)
    as [[w' tr] out] eqn:E.
  destruct out as [data|m]; [|now vm_compute in E].
  assert (G : generationCalls tr <> []).
  { vm_compute in E. injection E as _ <- _. discriminate. }
  destruct (generated_record_shape generatingHost (lit "Kubernetes")
              tt w' tr data E G) as (_ & A1 & A2 & A3 & P).
  destruct w'. exists tr, data. repeat split; assumption.
Defined.

Lemma applyDefaults_keeps dbId c props data :
  applyDefaults dbId (VObject c props) = Some data ->
  (forall k, In k [lit "examples"; lit "analogies"; lit "relatedTerms"] ->
     isArray (getProp (VObject c props) k) = true ->
     getProp data k = getProp (VObject c props) k)
  /\ (truthy (getProp (VObject c props) (lit "fullTerm")) = true ->
        getProp data (lit "fullTerm")
        = getProp (VObject c props) (lit "fullTerm"))
  /\ (truthy (getProp (VObject c props) (lit "practicalUsage")) = true ->
        getProp data (lit "practicalUsage")
        = getProp (VObject c props) (lit "practicalUsage"))
  /\ (forall k,
        forallb (fun n => negb (jsstring_eqb k n))
          [lit "id"; lit "examples"; lit "analogies"; lit "relatedTerms";
           lit "fullTerm"; lit "practicalUsage"] = true ->
        getProp data k = getProp (VObject c props) k).
Proof.
  unfold applyDefaults. cbn [setProp bind]. intros A.
  split; [|split; [|split]].
  - intros k K Hk.
    destruct K as [<-|[<-|[<-|[]]]];
      match type of A with (if ?b then _ else _) = _ => destruct b end;
      injection A as <-; props; unfold arrayOrEmpty; props; now rewrite Hk.
  - intros T.
    match type of A with (if ?b then _ else _) = _ => destruct b end;
      injection A as <-; props; unfold orElse; props;
      fold (getProp (VObject c props) (lit "fullTerm")); now rewrite T.
  - intros T. revert A. props.
    fold (getProp (VObject c props) (lit "practicalUsage")).
    rewrite T. cbn [negb]. intros A. injection A as <-. now props.
  - intros k K. cbn [forallb] in K.
    repeat (apply andb_true_iff in K as [?N K];
            match goal with X : negb _ = true |- _ =>
              apply negb_true_iff in X end).
    match type of A with (if ?b then _ else _) = _ => destruct b end;
      injection A as <-;
      repeat first [ rewrite getProp_set_ne by assumption ]; reflexivity.
Qed.

(** The post-processing changes nothing it does not have to.  When the
    generation tier is reached and the text the backend answered with
    parses to an object, the record returned keeps that payload's array
    under [examples], [analogies] or [relatedTerms], its [fullTerm] when
    truthy and its [practicalUsage] when truthy, and every field of it
    that is not one of these five or [id]. *)
Theorem generated_record_keeps_payload (h : Host) (termId : jsstring)
    (w w1 w2 : Remote h) (tr1 : list Event) (text : jsstring)
    (c : objclass) (props : list (jsstring * value)) :
  storeTier h (normalizeId (toLowerCase h) termId) w = (w1, tr1, None) ->
  truthy (localDatabase_get (trim (toLowerCase h termId))) = false ->
  generateContent h w1 (prompt termId) = (w2, GenerateResolved (Some text)) ->
  text <> [] ->
  JSON_parse h text = Some (VObject c props) ->
  exists w3 tr data,
    getTermData h termId w = (w3, tr, Fulfilled data)
    /\ (forall k, In k [lit "examples"; lit "analogies"; lit "relatedTerms"] ->
          isArray (getProp (VObject c props) k) = true ->
          getProp data k = getProp (VObject c props) k)
    /\ (truthy (getProp (VObject c props) (lit "fullTerm")) = true ->
          getProp data (lit "fullTerm")
          = getProp (VObject c props) (lit "fullTerm"))
    /\ (truthy (getProp (VObject c props) (lit "practicalUsage")) = true ->
          getProp data (lit "practicalUsage")
          = getProp (VObject c props) (lit "practicalUsage"))
    /\ (forall k,
          forallb (fun n => negb (jsstring_eqb k n))
            [lit "id"; lit "examples"; lit "analogies"; lit "relatedTerms";
             lit "fullTerm"; lit "practicalUsage"] = true ->
          getProp data k = getProp (VObject c props) k).
Proof.
  intros S L G T P.
  destruct (applyDefaults_total (normalizeId (toLowerCase h) termId) c props)
    as [data A].
  destruct (writeBack h (normalizeId (toLowerCase h) termId) data w2)
    as [w3 tr3] eqn:W.
  exists w3, (tr1 ++ EvLocalRead (trim (toLowerCase h termId))
                  :: EvGenerate (prompt termId) :: tr3), data.
  split.
  - unfold getTermData. rewrite S, L. unfold generationTier. rewrite G.
    destruct text as [|c0 t]; [now destruct T|].
    rewrite P. cbn [bind]. now rewrite A, W.
  - exact (applyDefaults_keeps _ c props data A).
Qed.

Lemma generated_record_keeps_payload_witness :
  exists w3 tr data,
    getTermData fullPayloadHost (lit "Kubernetes") tt
    = (w3, tr, Fulfilled data)
    /\ (forall k, In k [lit "examples"; lit "analogies"; lit "relatedTerms"] ->
          isArray (getProp fullPayload k) = true ->
          getProp data k = getProp fullPayload k)
    /\ (truthy (getProp fullPayload (lit "fullTerm")) = true ->
          getProp data (lit "fullTerm") = getProp fullPayload (lit "fullTerm"))
    /\ (truthy (getProp fullPayload (lit "practicalUsage")) = true ->
          getProp data (lit "practicalUsage")
          = getProp fullPayload (lit "practicalUsage"))
    /\ (forall k,
          forallb (fun n => negb (jsstring_eqb k n))
            [lit "id"; lit "examples"; lit "analogies"; lit "relatedTerms";
             lit "fullTerm"; lit "practicalUsage"] = true ->
          getProp data k = getProp fullPayload k).
Proof.
  apply (generated_record_keeps_payload fullPayloadHost (lit "Kubernetes")
           tt tt tt [EvSelect (lit "kubernetes")] (lit "{...}") Plain).
  - reflexivity.
  - reflexivity.
  - reflexivity.
  - discriminate.
  - reflexivity.
Defined.

(** An answer of the backend that parses to something that is not an
    object ([null], a number, a string, a boolean) counts as a failed
    generation: it is logged, nothing is written to the store and the
    resolver fails with its error. *)
Theorem non_object_payload_rejected (h : Host) (termId : jsstring)
    (w w1 w2 : Remote h) (tr1 : list Event) (text : jsstring)
    (parsed : value) :
  storeTier h (normalizeId (toLowerCase h) termId) w = (w1, tr1, None) ->
  truthy (localDatabase_get (trim (toLowerCase h termId))) = false ->
  generateContent h w1 (prompt termId) = (w2, GenerateResolved (Some text)) ->
  text <> [] ->
  JSON_parse h text = Some parsed ->
  isObject parsed = false ->
  getTermData h termId w
  = (w2, tr1 ++ [EvLocalRead (trim (toLowerCase h termId));
                 EvGenerate (prompt termId);
                 EvConsole Error (lit "AI Generation failed:")],
     Rejected notFound).
Proof.
  intros S L G T P O. unfold getTermData. rewrite S, L.
  unfold generationTier. rewrite G.
  destruct text as [|c t]; [now destruct T|]. rewrite P. cbn [bind].
  assert (A : applyDefaults (normalizeId (toLowerCase h) termId) parsed = None)
    by (destruct parsed; try reflexivity; discriminate).
  now rewrite A.
Qed.

Lemma non_object_payload_rejected_witness :
  getTermData nullPayloadHost (lit "Kafka") tt
  = (tt, [] ++ [EvLocalRead (trim (toLowerCase nullPayloadHost (lit "Kafka")));
                EvGenerate (prompt (lit "Kafka"));
                EvConsole Error (lit "AI Generation failed:")],
     Rejected notFound).
Proof.
  apply (non_object_payload_rejected nullPayloadHost (lit "Kafka") tt tt tt []
           (lit "null") VNull).
  - reflexivity.
  - reflexivity.
  - reflexivity.
  - discriminate.
  - reflexivity.
  - reflexivity.
Defined.

(** ** The seeder *)

Lemma getTermData_resolver_events h termId w :
  forallb isResolverEvent (traceOf (getTermData h termId w)) = true.
Proof.
  unfold getTermData, traceOf.
  assert (S : forallb isResolverEvent
                (snd (fst (storeTier h (normalizeId (toLowerCase h) termId) w)))
              = true).
  { unfold storeTier. destruct (isSupabaseConfigured h); [|reflexivity].
    destruct (supabase_select h w _) as [w0 [|data err]]; [reflexivity|].
    destruct (truthy data && truthy (getProp data (lit "content")));
      reflexivity. }
  destruct (storeTier h _ w) as [[w1 tr1] r]. cbn [fst snd] in *.
  destruct r as [content|]; [exact S|].
  destruct (truthy (localDatabase_get _)); cbn [fst snd].
  - rewrite forallb_app, S. reflexivity.
  - assert (G : forallb isResolverEvent
                  (snd (fst (generationTier h termId
                               (normalizeId (toLowerCase h) termId) w1)))
                = true).
    { unfold generationTier.
      destruct (generateContent h w1 (prompt termId)) as [w2 [|[[|c t]|]]];
        try reflexivity.
      destruct (d <- JSON_parse h (c :: t);; applyDefaults _ d) as [data|];
        [|reflexivity].
      unfold writeBack. destruct (isSupabaseConfigured h); reflexivity. }
    destruct (generationTier h termId _ w1) as [[w2 tr2] out].
    cbn [fst snd] in *. rewrite forallb_app, S. cbn [forallb]. now rewrite G.
Qed.

Lemma resolver_events_quiet (tr : list Event) :
  forallb isResolverEvent tr = true ->
  progress tr = [] /\ sleeps tr = [] /\ resolved tr = [].
Proof.
  induction tr as [|e tr IH]; [repeat split|]. cbn [forallb].
  intros H. apply andb_true_iff in H as [He Ht].
  destruct (IH Ht) as (P & S & R).
  unfold progress, sleeps, resolved in *. cbn [flat_map].
  rewrite P, S, R. destruct e; try discriminate; repeat split.
Qed.

Lemma seedLoop_counts h terms w :
  List.length (progress (snd (seedLoop h terms w)))
  = (2 * List.length (nonBlank terms))%nat
  /\ sleeps (snd (seedLoop h terms w))
     = repeat 1500 (List.length (nonBlank terms)).
Proof.
  revert w. induction terms as [|t rest IH]; intros w; [split; reflexivity|].
  cbn [seedLoop nonBlank filter]. destruct (isBlank t); [apply IH|].
  pose proof (getTermData_resolver_events h t w) as Q.
  apply resolver_events_quiet in Q as (P & S & _). unfold traceOf in *.
  destruct (getTermData h t w) as [[w1 tr] out]. cbn [fst snd] in *.
  specialize (IH w1). destruct (seedLoop h rest w1) as [w2 tr2].
  cbn [snd negb List.length] in *. destruct IH as [IP IS].
  unfold progress, sleeps in *. cbn [flat_map app].
  rewrite !flat_map_app, P, S. cbn [flat_map app List.length repeat].
  rewrite IS. split; [|reflexivity]. unfold nonBlank in *. rewrite IP. lia.
Qed.

(** What a seeding run tells the callback and how often it pauses: two
    messages before the walk, two for every item that is not blank, one at
    the end, and one pause of 1500 ms after every such item.  The first
    message announces the length of the whole list, blank items included. *)
Theorem seeder_message_and_pause_count (h : Host)
    (customList : option (list jsstring)) (w : Remote h) :
  isSupabaseConfigured h = true ->
  let tr := snd (seedDatabase h customList w) in
  let attempted := List.length (nonBlank (listToProcess customList)) in
  List.length (progress tr) = (3 + 2 * attempted)%nat
  /\ sleeps tr = repeat 1500 attempted
  /\ hd_error (progress tr)
     = Some (starting (List.length (listToProcess customList)))
  /\ (attempted <= List.length (listToProcess customList))%nat.
Proof.
  intros C. cbv zeta. unfold seedDatabase. rewrite C. cbn [negb].
  pose proof (seedLoop_counts h (listToProcess customList) w) as [P S].
  destruct (seedLoop h (listToProcess customList) w) as [w1 tr].
  cbn [snd] in *. unfold progress, sleeps in *. cbn [flat_map app].
  rewrite !flat_map_app. cbn [flat_map app List.length].
  rewrite length_app, P, S. cbn [List.length].
  split; [lia|]. split; [now rewrite app_nil_r|]. split; [reflexivity|].
  unfold nonBlank. apply filter_length_le.
Qed.

Lemma seeder_message_and_pause_count_witness :
  let tr := snd (seedDatabase flakyHost (Some [lit "A"; lit " "; lit "B"]) tt) in
  let attempted :=
    List.length (nonBlank (listToProcess (Some [lit "A"; lit " "; lit "B"]))) in
  List.length (progress tr) = (3 + 2 * attempted)%nat
  /\ sleeps tr = repeat 1500 attempted
  /\ hd_error (progress tr)
     = Some (starting (List.length
                         (listToProcess (Some [lit "A"; lit " "; lit "B"]))))
  /\ (attempted
      <= List.length (listToProcess (Some [lit "A"; lit " "; lit "B"])))%nat.
Proof.
  apply (seeder_message_and_pause_count flakyHost
           (Some [lit "A"; lit " "; lit "B"]) tt).
  reflexivity.
Defined.

Lemma seedLoop_blank h terms w :
  forallb isBlank terms = true -> seedLoop h terms w = (w, []).
Proof.
  induction terms as [|t rest IH]; [reflexivity|]. cbn [forallb seedLoop].
  intros H. apply andb_true_iff in H as [Ht Hr]. rewrite Ht. now apply IH.
Qed.

(** A list that has items but only blank ones is announced with its full
    length, nothing is resolved, the remote services are left alone, and
    completion is reported; the seeder does not fall back to its default
    list. *)
Theorem seeder_all_blank (h : Host) (t : jsstring) (l : list jsstring)
    (w : Remote h) :
  isSupabaseConfigured h = true ->
  forallb isBlank (t :: l) = true ->
  seedDatabase h (Some (t :: l)) w
  = (w, [EvProgress (starting (List.length (t :: l)));
         EvProgress (lit "Atenção: Isso consome tokens da sua API Key.");
         EvProgress finished]).
Proof.
  intros C B. unfold seedDatabase. rewrite C. cbn [negb listToProcess].
  now rewrite (seedLoop_blank h (t :: l) w B).
Qed.

Lemma seeder_all_blank_witness :
  seedDatabase generatingHost (Some [lit " "; lit ""]) tt
  = (tt, [EvProgress (starting (List.length [lit " "; lit ""]));
          EvProgress (lit "Atenção: Isso consome tokens da sua API Key.");
          EvProgress finished]).
Proof.
  apply (seeder_all_blank generatingHost (lit " ") [lit ""] tt); reflexivity.
Defined.

(** An item the resolver fulfils is announced, resolved, reported as saved
    and followed by the pause; the walk then goes on with the items after
    it and ends with the completion message. *)
Theorem seeder_reports_success (h : Host)
    (customList : option (list jsstring)) (w w1 : Remote h)
    (pre post : list jsstring) (term : jsstring) (tr : list Event)
    (data : value) :
  isSupabaseConfigured h = true ->
  listToProcess customList = pre ++ term :: post ->
  isBlank term = false ->
  getTermData h term (fst (seedLoop h pre w)) = (w1, tr, Fulfilled data) ->
  exists before,
    snd (seedDatabase h customList w)
    = before
      ++ EvProgress (processing term) :: EvResolve term :: tr
      ++ EvProgress (saved term) :: EvSleep 1500
         :: snd (seedLoop h post w1)
      ++ [EvProgress finished]
    /\ fst (seedDatabase h customList w) = fst (seedLoop h post w1).
Proof.
  intros C L B G. unfold seedDatabase. rewrite C. cbn [negb].
  rewrite L. rewrite seedLoop_app.
  destruct (seedLoop h pre w) as [w0 tr0]. cbn [fst] in G.
  cbn [seedLoop]. rewrite B, G.
  destruct (seedLoop h post w1) as [w2 tr2]. cbn [snd fst report].
  exists (EvProgress (starting (List.length (pre ++ term :: post)))
          :: EvProgress (lit "Atenção: Isso consome tokens da sua API Key.")
          :: tr0).
  split; [|reflexivity].
  cbn [app]. do 2 f_equal. rewrite <- !app_assoc. cbn [app].
  do 3 f_equal. rewrite <- app_assoc. reflexivity.
Qed.

Lemma seeder_reports_success_witness :
  exists before,
    snd (seedDatabase flakyHost (Some [lit "B"; lit "A"]) tt)
    = before
      ++ EvProgress (processing (lit "A")) :: EvResolve (lit "A")
         :: traceOf (getTermData flakyHost (lit "A") tt)
      ++ EvProgress (saved (lit "A")) :: EvSleep 1500
         :: snd (seedLoop flakyHost [] tt)
      ++ [EvProgress finished]
    /\ fst (seedDatabase flakyHost (Some [lit "B"; lit "A"]) tt)
       = fst (seedLoop flakyHost [] tt).
Proof.
  apply (seeder_reports_success flakyHost (Some [lit "B"; lit "A"]) tt tt
           [lit "B"] [] (lit "A")
           (traceOf (getTermData flakyHost (lit "A") tt))
           (match outcomeOf (getTermData flakyHost (lit "A") tt) with
            | Fulfilled d => d
            | Rejected _ => VNull
            end)).
  - reflexivity.
  - reflexivity.
  - reflexivity.
  - vm_compute. reflexivity.
Defined.

Lemma seedLoop_calls h terms w :
  isSupabaseConfigured h = true ->
  selects (snd (seedLoop h terms w))
  = map (normalizeId (toLowerCase h)) (nonBlank terms)
  /\ (List.length (generationCalls (snd (seedLoop h terms w)))
      <= List.length (nonBlank terms))%nat.
Proof.
  intros C. revert w. induction terms as [|t rest IH]; intros w.
  - split; [reflexivity|]. simpl. lia.
  - cbn [seedLoop nonBlank filter]. destruct (isBlank t); [apply IH|].
    destruct (getTermData_call_counts h t w) as (S & _ & G & _).
    rewrite C in S. unfold traceOf in *.
    destruct (getTermData h t w) as [[w1 tr] out]. cbn [fst snd] in *.
    specialize (IH w1). destruct (seedLoop h rest w1) as [w2 tr2].
    cbn [snd negb map List.length] in *. destruct IH as [IS IG].
    unfold selects, generationCalls, nonBlank in *. cbn [flat_map app].
    rewrite !flat_map_app, S. cbn [flat_map app]. rewrite IS.
    split; [reflexivity|]. rewrite length_app. lia.
Qed.

(** Seeding on a configured store looks every attempted item up under its
    normalized id, in the order of the list, and calls the generation
    backend at most once per attempted item. *)
Theorem seeder_backend_calls (h : Host) (customList : option (list jsstring))
    (w : Remote h) :
  isSupabaseConfigured h = true ->
  selects (snd (seedDatabase h customList w))
  = map (normalizeId (toLowerCase h)) (nonBlank (listToProcess customList))
  /\ (List.length (generationCalls (snd (seedDatabase h customList w)))
      <= List.length (nonBlank (listToProcess customList)))%nat.
Proof.
  intros C. unfold seedDatabase. rewrite C. cbn [negb].
  destruct (seedLoop_calls h (listToProcess customList) w C) as [S G].
  destruct (seedLoop h (listToProcess customList) w) as [w1 tr].
  cbn [snd] in *. unfold selects, generationCalls in *. cbn [flat_map app].
  rewrite !flat_map_app. cbn [flat_map]. rewrite !app_nil_r.
  split; assumption.
Qed.

Lemma seeder_backend_calls_witness :
  selects (snd (seedDatabase flakyHost (Some [lit "A"; lit " "; lit "B"]) tt))
  = map (normalizeId (toLowerCase flakyHost))
      (nonBlank (listToProcess (Some [lit "A"; lit " "; lit "B"])))
  /\ (List.length (generationCalls
         (snd (seedDatabase flakyHost (Some [lit "A"; lit " "; lit "B"]) tt)))
      <= List.length
           (nonBlank (listToProcess (Some [lit "A"; lit " "; lit "B"]))))%nat.
Proof.
  apply (seeder_backend_calls flakyHost (Some [lit "A"; lit " "; lit "B"]) tt).
  reflexivity.
Defined.

(** ** The glossary filters *)







Lemma act_keeps_exclusive (f : Filters) (a : FilterAction) :
  searchTerm f = [] \/ activeLetter f = None ->
  searchTerm (act f a) = [] \/ activeLetter (act f a) = None.
Proof.
  intros I. destruct a as [text|char|cat|]; simpl.
  - destruct text; simpl; [now left|now right].
  - unfold handleLetterClick. destruct (strictEq (activeLetter f) char); simpl;
      [now right|now left].
  - exact I.
  - now left.
Qed.

(** Search text and letter filter never coexist: whatever the user types
    and clicks, starting from the initial page, a non-empty search text
    goes with no active letter. *)
Theorem search_and_letter_exclusive (actions : list FilterAction) :
  searchTerm (afterActions actions) = []
  \/ activeLetter (afterActions actions) = None.
Proof.
  unfold afterActions.
  assert (G : forall f, searchTerm f = [] \/ activeLetter f = None ->
                searchTerm (fold_left act actions f) = []
                \/ activeLetter (fold_left act actions f) = None).
  { induction actions as [|a rest IH]; intros f I; [exact I|].
    simpl. apply IH. now apply act_keeps_exclusive. }
  apply G. now left.
Qed.

Lemma startsWith_prefix (s a b : jsstring) :
  startsWith s (a ++ b) = true -> startsWith s a = true.
Proof.
  revert s. induction a as [|x a IH]; intros s; [now destruct s|].
  destruct s as [|y s]; simpl; [discriminate|]. intros H.
  apply andb_true_iff in H as [H1 H2]. rewrite H1. now apply IH.
Qed.

Lemma includes_prefix (s a b : jsstring) :
  includes s (a ++ b) = true -> includes s a = true.
Proof.
  induction s as [|y s IH]; cbn [includes].
  - rewrite !orb_false_r. apply startsWith_prefix.
  - intros H. apply orb_true_iff in H as [H|H].
    + apply startsWith_prefix in H. now rewrite H.
    + rewrite (IH H). apply orb_true_r.
Qed.

(** Typing more never shows more: an entry shown for an ASCII search text
    is also shown for every non-empty beginning of that text. *)
Theorem longer_search_shows_less (lower upper : jsstring -> jsstring)
    (cat q r : jsstring) (letter : option jsstring) (item : GlossaryItem) :
  LowersAscii lower ->
  forallb isAscii (q ++ r) = true ->
  q <> [] ->
  shown lower upper
    {| activeCat := cat; searchTerm := q ++ r; activeLetter := letter |} item
  = true ->
  shown lower upper
    {| activeCat := cat; searchTerm := q; activeLetter := letter |} item
  = true.
Proof.
  intros L A Q. unfold shown, searchMatch, catMatch.
  cbn [searchTerm activeCat activeLetter].
  destruct q as [|x q]; [now destruct Q|]. cbn [app isEmpty negb orb].
  change (x :: q ++ r) with ((x :: q) ++ r). rewrite (L _ A).
  rewrite forallb_app in A. apply andb_true_iff in A as [Aq _].
  rewrite (L _ Aq), map_app.
  intros H. apply andb_true_iff in H as [C S]. rewrite C. cbn [andb].
  apply orb_true_iff in S as [S|S]; apply includes_prefix in S; rewrite S;
    [reflexivity|apply orb_true_r].
Qed.

Lemma longer_search_shows_less_witness :
  shown asciiToLowerCase (fun s => s)
    {| activeCat := lit "Todos"; searchTerm := lit "kube"; activeLetter := None |}
    {| item_id := Some (lit "kubernetes"); item_term := Some (lit "Kubernetes");
       item_category := Some (lit "Infraestrutura"); item_definition := None |}
  = true.
Proof.
  apply (longer_search_shows_less asciiToLowerCase (fun s => s)
           (lit "Todos") (lit "kube") (lit "RNE") None
           {| item_id := Some (lit "kubernetes");
              item_term := Some (lit "Kubernetes");
              item_category := Some (lit "Infraestrutura");
              item_definition := None |}).
  - intros s _. reflexivity.
  - reflexivity.
  - discriminate.
  - reflexivity.
Defined.

(** ** Keys across the tiers *)

(** A record served by the seed set carries, like a generated one, the
    normalized id of the raw text that asked for it. *)
Theorem seed_record_id_is_normalized (h : Host) (termId : jsstring)
    (record : value) :
  lookupProp (trim (toLowerCase h termId)) localDatabase = Some record ->
  getProp record (lit "id") = VStr (normalizeId (toLowerCase h) termId)
  /\ normalizeId (toLowerCase h) termId = trim (toLowerCase h termId).
Proof.
  unfold localDatabase, normalizeId. cbn [lookupProp].
  destruct (jsstring_eqb (trim (toLowerCase h termId)) (lit "api")) eqn:E;
    [|discriminate].
  apply jsstring_eqb_eq in E. rewrite E. intros H. injection H as <-.
  split; reflexivity.
Qed.

Lemma seed_record_id_is_normalized_witness :
  getProp apiRecord (lit "id")
  = VStr (normalizeId (toLowerCase offlineHost) (lit " API "))
  /\ normalizeId (toLowerCase offlineHost) (lit " API ")
     = trim (toLowerCase offlineHost (lit " API ")).
Proof.
  apply (seed_record_id_is_normalized offlineHost (lit " API ") apiRecord).
  reflexivity.
Defined.

(** The seed set is read with [localDatabase[rawId]], so a raw text whose
    lower-cased, trimmed form names a property that every object inherits
    ("constructor", "__proto__", ...) is answered by the seed tier with
    that inherited object whenever the store has no record: the generation
    backend is never asked about such a term. *)
Theorem inherited_name_shadows_generation (h : Host) (termId : jsstring)
    (w w1 : Remote h) (tr1 : list Event) (name : string) :
  storeTier h (normalizeId (toLowerCase h) termId) w = (w1, tr1, None) ->
  In name objectPrototypeNames ->
  trim (toLowerCase h termId) = lit name ->
  getTermData h termId w
  = (w1, tr1 ++ [EvLocalRead (lit name)],
     Fulfilled (VObject (HostObject name) []))
  /\ generationCalls (tr1 ++ [EvLocalRead (lit name)]) = [].
Proof.
  intros S M E.
  assert (G : localDatabase_get (lit name) = VObject (HostObject name) []).
  { unfold objectPrototypeNames in M.
    repeat (destruct M as [<-|M]; [reflexivity|]). contradiction. }
  split.
  - unfold getTermData. rewrite S, E, G. reflexivity.
  - apply storeTier_trace in S as (G1 & _).
    unfold generationCalls in *. now rewrite flat_map_app, G1.
Qed.

Lemma inherited_name_shadows_generation_witness :
  getTermData generatingHost (lit "Constructor") tt
  = (tt, [EvSelect (lit "constructor")] ++ [EvLocalRead (lit "constructor")],
     Fulfilled (VObject (HostObject "constructor") []))
  /\ generationCalls
       ([EvSelect (lit "constructor")] ++ [EvLocalRead (lit "constructor")]) = [].
Proof.
  apply (inherited_name_shadows_generation generatingHost (lit "Constructor")
           tt tt [EvSelect (lit "constructor")] "constructor").
  - reflexivity.
  - left. reflexivity.
  - reflexivity.
Defined.

Lemma trimStart_lower (l : jsstring) :
  trimStart (map lowerAscii l) = map lowerAscii (trimStart l).
Proof.
  induction l as [|y r IH]; simpl; [reflexivity|].
  rewrite lowerAscii_space. destruct (isWhiteSpace y); [exact IH|reflexivity].
Qed.

Lemma trim_lower (l : jsstring) :
  trim (map lowerAscii l) = map lowerAscii (trim l).
Proof.
  unfold trim, trimEnd. now rewrite trimStart_lower, <- map_rev, trimStart_lower, map_rev.
Qed.

Lemma nonBlank_id_not_empty (lower : jsstring -> jsstring) (t : jsstring) :
  LowersAscii lower -> forallb isAscii t = true -> isBlank t = false ->
  normalizeId lower t <> [].
Proof.
  intros L A B H. apply normalizeId_nil in H.
  rewrite (L _ A), trim_lower in H. apply map_eq_nil in H.
  unfold isBlank in B. now rewrite H in B.
Qed.

(** The seeder never addresses the store with an empty key: every lookup it
    causes for a list of ASCII terms is under a non-empty id, because the
    items it attempts are not blank. *)
Theorem seeder_keys_not_empty (h : Host) (customList : option (list jsstring))
    (w : Remote h) :
  isSupabaseConfigured h = true ->
  LowersAscii (toLowerCase h) ->
  forallb (forallb isAscii) (listToProcess customList) = true ->
  Forall (fun id => id <> []) (selects (snd (seedDatabase h customList w))).
Proof.
  intros C L A.
  assert (S : selects (snd (seedDatabase h customList w))
              = map (normalizeId (toLowerCase h))
                  (nonBlank (listToProcess customList))).
  { unfold seedDatabase. rewrite C. cbn [negb].
    destruct (seedLoop_calls h (listToProcess customList) w C) as [S _].
    destruct (seedLoop h (listToProcess customList) w) as [w1 tr].
    cbn [snd] in *. unfold selects in *. cbn [flat_map app].
    rewrite !flat_map_app. cbn [flat_map]. now rewrite !app_nil_r. }
  rewrite S. apply Forall_map, Forall_forall. intros t T.
  unfold nonBlank in T. apply filter_In in T as [T B].
  apply negb_true_iff in B. rewrite forallb_forall in A.
  now apply nonBlank_id_not_empty; [| apply A |].
Qed.

Lemma seeder_keys_not_empty_witness :
  Forall (fun id => id <> [])
    (selects (snd (seedDatabase flakyHost (Some [lit "A"; lit " "; lit "!"]) tt))).
Proof.
  apply (seeder_keys_not_empty flakyHost (Some [lit "A"; lit " "; lit "!"]) tt).
  - reflexivity.
  - intros s _. reflexivity.
  - reflexivity.
Defined.
